(** * A two-layer neural network trained by mini-batch gradient descent

    Shallow embedding of [src/nn.py] and proofs of its specification.

    - Numbers are the real numbers of the Standard Library: [exp], [ln],
      division and comparison are the exact mathematical operations.  The
      rounding, underflow, overflow and NaN behaviour of IEEE-754 [float64]
      is outside this model; in particular a division of an array by the
      integer 0, which numpy answers with [nan] or [inf] and a warning, is
      the total division of the reals here.
    - The two activation functions are embedded a second time over the
      binary64 numbers themselves ([softmax64], [sigmoid64]), where their
      results after rounding are computed: an exponential that underflows
      is exactly 0 there, and a sum that absorbs it is exactly 1.
    - A numpy array is its shape and its element function ([ndarray2],
      [ndarray1]); shape mismatches raise as numpy does, and axes of
      length 1 broadcast.
    - Python exceptions are explicit ([result]).
    - The dictionaries of parameters and of gradients are records with the
      keys [W1], [b1], [W2], [b2], each holding an array of its own; the
      dictionary that the optimizer mutates in place is an explicit store
      ([M]), and so is the process-wide random generator. *)

From Stdlib Require Import Reals Lra Lia List ZArith Bool PeanoNat.
From Stdlib Require Import FunctionalExtensionality.
From Stdlib Require Import Floats.
Import ListNotations.

Set Implicit Arguments.
Open Scope R_scope.

(** ** Exceptions *)

Inductive exn : Type :=
| ZeroDivisionError
| ValueError.

Inductive result (A : Type) : Type :=
| Ok (a : A)
| Raise (e : exn).

Arguments Ok {A} a.
Arguments Raise {A} e.

Definition rbind {A B : Type} (m : result A) (k : A -> result B) : result B :=
  match m with
  | Ok a => k a
  | Raise e => Raise e
  end.

Declare Scope py_scope.
Delimit Scope py_scope with py.
Notation "x <- m ;; k" := (rbind m (fun x => k))
  (at level 61, m at next level, right associativity) : py_scope.
Notation "' pat <- m ;; k" := (rbind m (fun x => match x with pat => k end))
  (at level 61, pat pattern, m at next level, right associativity) : py_scope.
Open Scope py_scope.

(** ** numpy arrays

    An array is its shape together with its element function; the elements
    at indices outside the shape are not part of the array, and two arrays
    are compared element-wise inside their common shape. *)

Record ndarray2 : Type := mkMat {
  mshape0 : nat;
  mshape1 : nat;
  mat : nat -> nat -> R
}.

Record ndarray1 : Type := mkVec {
  vshape0 : nat;
  vec : nat -> R
}.

Definition mat_eq (x y : ndarray2) : Prop :=
  mshape0 x = mshape0 y /\ mshape1 x = mshape1 y /\
  forall i j, (i < mshape0 x)%nat -> (j < mshape1 x)%nat -> mat x i j = mat y i j.

Definition vec_eq (x y : ndarray1) : Prop :=
  vshape0 x = vshape0 y /\
  forall j, (j < vshape0 x)%nat -> vec x j = vec y j.

(** Array literals, for concrete inputs. *)
Definition of_rows (ncols : nat) (l : list (list R)) : ndarray2 :=
  mkMat (length l) ncols (fun i j => nth j (nth i l []) 0).

Definition of_list (l : list R) : ndarray1 :=
  mkVec (length l) (fun j => nth j l 0).

(** *** Reductions over an index range *)

(** [sum_upto f n] is [f 0 + ... + f (n-1)]. *)
Fixpoint sum_upto (f : nat -> R) (n : nat) : R :=
  match n with
  | O => 0
  | S k => sum_upto f k + f k
  end.

(** [max_from f n] is the maximum of [f 0, ..., f n]. *)
Fixpoint max_from (f : nat -> R) (n : nat) : R :=
  match n with
  | O => f O
  | S k => Rmax (max_from f k) (f (S k))
  end.

(** [argmax_from f n] is the first index among [0..n] where [f] is maximal. *)
Fixpoint argmax_from (f : nat -> R) (n : nat) : nat :=
  match n with
  | O => O
  | S k => let b := argmax_from f k in
           if Rlt_dec (f b) (f (S k)) then S k else b
  end.

(** *** Broadcasting *)

(** The common length of two axes, or [ValueError] when neither is 1 and
    they differ. *)
Definition broadcast_dim (a b : nat) : result nat :=
  if (a =? b)%nat then Ok a
  else if (a =? 1)%nat then Ok b
  else if (b =? 1)%nat then Ok a
  else Raise ValueError.

(** The index read along an axis of length [d] that is being broadcast. *)
Definition bidx (d i : nat) : nat := if (d =? 1)%nat then O else i.

(** Element-wise binary operation on two 2-d arrays. *)
Definition ew2 (f : R -> R -> R) (x y : ndarray2) : result ndarray2 :=
  r <- broadcast_dim (mshape0 x) (mshape0 y) ;;
  c <- broadcast_dim (mshape1 x) (mshape1 y) ;;
  Ok (mkMat r c (fun i j =>
        f (mat x (bidx (mshape0 x) i) (bidx (mshape1 x) j))
          (mat y (bidx (mshape0 y) i) (bidx (mshape1 y) j)))).

(** Element-wise binary operation of a 2-d array with a 1-d array, which
    numpy treats as a single row. *)
Definition ew21 (f : R -> R -> R) (x : ndarray2) (v : ndarray1) : result ndarray2 :=
  c <- broadcast_dim (mshape1 x) (vshape0 v) ;;
  Ok (mkMat (mshape0 x) c (fun i j =>
        f (mat x i (bidx (mshape1 x) j)) (vec v (bidx (vshape0 v) j)))).

(** In-place [x op= y]: [y] must broadcast to the shape of [x]. *)
Definition inplace2 (f : R -> R -> R) (x y : ndarray2) : result ndarray2 :=
  r <- broadcast_dim (mshape0 x) (mshape0 y) ;;
  c <- broadcast_dim (mshape1 x) (mshape1 y) ;;
  if ((r =? mshape0 x) && (c =? mshape1 x))%nat
  then Ok (mkMat (mshape0 x) (mshape1 x) (fun i j =>
             f (mat x i j) (mat y (bidx (mshape0 y) i) (bidx (mshape1 y) j))))
  else Raise ValueError.

Definition inplace1 (f : R -> R -> R) (x y : ndarray1) : result ndarray1 :=
  c <- broadcast_dim (vshape0 x) (vshape0 y) ;;
  if (c =? vshape0 x)%nat
  then Ok (mkVec (vshape0 x) (fun j => f (vec x j) (vec y (bidx (vshape0 y) j))))
  else Raise ValueError.

(** *** Element-wise maps, products, reductions, slices *)

Definition mmap (f : R -> R) (x : ndarray2) : ndarray2 :=
  mkMat (mshape0 x) (mshape1 x) (fun i j => f (mat x i j)).

Definition vmap (f : R -> R) (v : ndarray1) : ndarray1 :=
  mkVec (vshape0 v) (fun j => f (vec v j)).

(** [x.dot(y)] *)
Definition dot (x y : ndarray2) : result ndarray2 :=
  if (mshape1 x =? mshape0 y)%nat
  then Ok (mkMat (mshape0 x) (mshape1 y)
             (fun i j => sum_upto (fun k => mat x i k * mat y k j) (mshape1 x)))
  else Raise ValueError.

(** [x.T] *)
Definition transpose (x : ndarray2) : ndarray2 :=
  mkMat (mshape1 x) (mshape0 x) (fun i j => mat x j i).

(** [np.max(x, axis=1, keepdims=True)]: a reduction without identity, so an
    axis of length zero is an error. *)
Definition amax_axis1 (x : ndarray2) : result ndarray2 :=
  if (mshape1 x =? 0)%nat then Raise ValueError
  else Ok (mkMat (mshape0 x) 1 (fun i _ => max_from (mat x i) (mshape1 x - 1))).

(** [np.sum(x, axis=1, keepdims=True)] *)
Definition sum_axis1_keepdims (x : ndarray2) : ndarray2 :=
  mkMat (mshape0 x) 1 (fun i _ => sum_upto (mat x i) (mshape1 x)).

(** [np.sum(x, axis=1)] *)
Definition sum_axis1 (x : ndarray2) : ndarray1 :=
  mkVec (mshape0 x) (fun i => sum_upto (mat x i) (mshape1 x)).

(** [np.sum(v, axis=0)] of a 1-d array: a scalar. *)
Definition vsum (v : ndarray1) : R := sum_upto (vec v) (vshape0 v).

(** [np.sum(x, axis=0, keepdims=True)[0]] *)
Definition sum_axis0_row (x : ndarray2) : ndarray1 :=
  mkVec (mshape1 x) (fun j => sum_upto (fun i => mat x i j) (mshape0 x)).

(** [np.argmax(x, axis=1)]: an error on an axis of length zero. *)
Definition argmax_axis1 (x : ndarray2) : result (nat * (nat -> nat)) :=
  if (mshape1 x =? 0)%nat then Raise ValueError
  else Ok (mshape0 x, fun i => argmax_from (mat x i) (mshape1 x - 1)).

(** A Python slice bound [k] on an axis of length [n]: negative bounds count
    from the end, and every bound is clamped to [0..n]. *)
Definition slice_index (n : nat) (k : Z) : nat :=
  Z.to_nat (Z.min (Z.of_nat n)
                  (if (k <? 0)%Z then Z.max 0 (k + Z.of_nat n) else k)).

(** [x[b:e]] *)
Definition slice_rows (x : ndarray2) (b e : Z) : ndarray2 :=
  let lo := slice_index (mshape0 x) b in
  let hi := slice_index (mshape0 x) e in
  mkMat (hi - lo) (mshape1 x) (fun i j => mat x (lo + i) j).

(** ** Activation functions *)

(** [softmax], lines 5-17. *)
Definition softmax (x : ndarray2) : result ndarray2 :=
  n <- amax_axis1 x ;;
  xn <- ew2 Rminus x n ;;
  xn' <- ew2 Rminus x n ;;
  ew2 Rdiv (mmap exp xn) (sum_axis1_keepdims (mmap exp xn')).

(** One entry of [sigmoid]: [z] is [exp(-x)] where [x >= 0] and [exp(x)]
    where [x < 0]; the numerator is 1, replaced by [z] where [x < 0]. *)
Definition sigmoid_entry (x : R) : R :=
  let z := if Rge_dec x 0 then exp (- x)
           else if Rlt_dec x 0 then exp x else 0 in
  let denominator := 1 + z in
  let numerator := if Rlt_dec x 0 then z else 1 in
  numerator / denominator.

(** [sigmoid], lines 20-43. *)
Definition sigmoid (x : ndarray2) : ndarray2 :=
  mmap sigmoid_entry x.

(** ** Parameters and gradients

    Both are dictionaries with the four keys [W1], [b1], [W2], [b2]: the
    weights are 2-d arrays and the biases 1-d arrays. *)

Record Params : Type := mkParams {
  W1 : ndarray2;
  b1 : ndarray1;
  W2 : ndarray2;
  b2 : ndarray1
}.

Definition params_eq (p q : Params) : Prop :=
  mat_eq (W1 p) (W1 q) /\ vec_eq (b1 p) (b1 q) /\
  mat_eq (W2 p) (W2 q) /\ vec_eq (b2 p) (b2 q).

Definition set_W1 (w : ndarray2) (p : Params) : Params :=
  mkParams w (b1 p) (W2 p) (b2 p).
Definition set_W2 (w : ndarray2) (p : Params) : Params :=
  mkParams (W1 p) (b1 p) w (b2 p).
Definition set_b1 (v : ndarray1) (p : Params) : Params :=
  mkParams (W1 p) v (W2 p) (b2 p).
Definition set_b2 (v : ndarray1) (p : Params) : Params :=
  mkParams (W1 p) (b1 p) (W2 p) v.

(** ** Mutable state with exceptions

    [ST S A] is a computation that reads and updates a store of type [S]
    and either returns an [A] or raises; the store it leaves behind is kept
    in both cases. *)

Definition ST (S A : Type) : Type := S -> result A * S.

Definition sret {S A : Type} (a : A) : ST S A := fun s => (Ok a, s).

Definition sbind {S A B : Type} (m : ST S A) (k : A -> ST S B) : ST S B :=
  fun s => match m s with
           | (Ok a, s') => k a s'
           | (Raise e, s') => (Raise e, s')
           end.

Definition lift {S A : Type} (r : result A) : ST S A := fun s => (r, s).

Definition get {S : Type} : ST S S := fun s => (Ok s, s).

Notation "x <~ m ;; k" := (sbind m (fun x => k))
  (at level 61, m at next level, right associativity) : py_scope.
Notation "m ;;; k" := (sbind m (fun _ => k))
  (at level 61, right associativity) : py_scope.

(** [for i in l: body(i)] *)
Fixpoint for_each {S : Type} (l : list nat) (body : nat -> ST S unit) : ST S unit :=
  match l with
  | [] => sret tt
  | i :: l' => body i ;;; for_each l' body
  end.

(** The parameter store of the optimizer. *)
Definition M (A : Type) : Type := ST Params A.

(** ** The random source

    [np.random.normal(0, 1, size)] reads the process-wide generator: the
    generator is the sequence [std_normal] of the samples it will deliver
    and the store is the number of samples consumed so far.  A 2-d array is
    filled in row-major order. *)

Section RandomSource.

Variable std_normal : nat -> R.

Definition random_normal (rows cols : Z) : ST nat ndarray2 :=
  fun pos =>
    if ((rows <? 0) || (cols <? 0))%Z then (Raise ValueError, pos)
    else
      let r := Z.to_nat rows in
      let c := Z.to_nat cols in
      (Ok (mkMat r c (fun i j => std_normal (pos + i * c + j))), (pos + r * c)%nat).

(** [np.zeros(shape=(n))] *)
Definition zeros (n : Z) : result ndarray1 :=
  if (n <? 0)%Z then Raise ValueError
  else Ok (mkVec (Z.to_nat n) (fun _ => 0)).

(** [get_initial_params], lines 46-69: [W1], then [W2], are drawn from the
    generator, then [b1] and [b2] are zero vectors; a negative size is a
    [ValueError]. *)
Definition get_initial_params (input_size num_hidden num_output : Z) : ST nat Params :=
  w1 <~ random_normal input_size num_hidden ;;
  w2 <~ random_normal num_hidden num_output ;;
  v1 <~ lift (zeros num_hidden) ;;
  v2 <~ lift (zeros num_output) ;;
  sret (mkParams w1 v1 w2 v2).

End RandomSource.

(** ** Forward and backward pass *)

Definition forward_t : Type :=
  ndarray2 -> ndarray2 -> Params -> result (ndarray2 * ndarray2 * R).

Definition backward_t : Type :=
  ndarray2 -> ndarray2 -> Params -> forward_t -> result Params.

(** [forward_prop], lines 72-105.  In the loss, [1/n] is evaluated before
    [labels*np.log(a2)]. *)
Definition forward_prop (data labels : ndarray2) (params : Params)
  : result (ndarray2 * ndarray2 * R) :=
  let W1 := W1 params in
  let b1 := b1 params in
  let W2 := W2 params in
  let b2 := b2 params in
  z1 <- dot data W1 ;;
  z1 <- ew21 Rplus z1 b1 ;;
  let a1 := sigmoid z1 in
  z2 <- dot a1 W2 ;;
  z2 <- ew21 Rplus z2 b2 ;;
  a2 <- softmax z2 ;;
  let n := mshape0 labels in
  if (n =? 0)%nat then Raise ZeroDivisionError
  else
    ll <- ew2 Rmult labels (mmap ln a2) ;;
    let loss := - (1 / INR n) * vsum (sum_axis1 ll) in
    Ok (a1, a2, loss).

(** [backward_prop], lines 108-147.  Line 134 calls the module-level
    [forward_prop]; the argument [forward_prop_func] is not used. *)
Definition backward_prop (data labels : ndarray2) (params : Params)
    (forward_prop_func : forward_t) : result Params :=
  let W1 := W1 params in
  let b1 := b1 params in
  let W2 := W2 params in
  let b2 := b2 params in
  '(a1, a2, _) <- forward_prop data labels params ;;
  let n := mshape0 data in
  d1 <- ew2 Rminus a2 labels ;;
  dW2 <- dot (transpose a1) d1 ;;
  let dW2 := mmap (fun v => v / INR n) dW2 in
  let db2 := sum_axis0_row d1 in
  t <- dot d1 (transpose W2) ;;
  s <- ew2 Rmult a1 (mmap (fun v => 1 - v) a1) ;;
  d2 <- ew2 Rmult t s ;;
  dW1 <- dot (transpose data) d2 ;;
  let dW1 := mmap (fun v => v / INR n) dW1 in
  let db1 := sum_axis0_row d2 in
  Ok (mkParams dW1 db1 dW2 db2).

(** [backward_prop_regularized], lines 151-195.  Line 178 calls the
    module-level [forward_prop] as well. *)
Definition backward_prop_regularized (data labels : ndarray2) (params : Params)
    (forward_prop_func : forward_t) (reg : R) : result Params :=
  let W1 := W1 params in
  let b1 := b1 params in
  let W2 := W2 params in
  let b2 := b2 params in
  '(a1, a2, _) <- forward_prop data labels params ;;
  let n := mshape0 data in
  d1 <- ew2 Rminus a2 labels ;;
  dW2 <- dot (transpose a1) d1 ;;
  let dW2 := mmap (fun v => v / INR n) dW2 in
  let db2 := sum_axis0_row d1 in
  t <- dot d1 (transpose W2) ;;
  s <- ew2 Rmult a1 (mmap (fun v => 1 - v) a1) ;;
  d2 <- ew2 Rmult t s ;;
  dW1 <- dot (transpose data) d2 ;;
  let dW1 := mmap (fun v => v / INR n) dW1 in
  let db1 := sum_axis0_row d2 in
  dW2 <- inplace2 Rplus dW2 (mmap (fun w => reg * w * 2) W2) ;;
  dW1 <- inplace2 Rplus dW1 (mmap (fun w => reg * w * 2) W1) ;;
  Ok (mkParams dW1 db1 dW2 db2).

(** ** The optimizer *)

(** [int(n / batch_size)]: true division, which raises on a zero divisor,
    then truncation towards zero.  (Python computes the quotient in
    [float64]; its truncation is the exact one for every [n < 2^53].) *)
Definition int_div (n : nat) (batch_size : Z) : result Z :=
  if (batch_size =? 0)%Z then Raise ZeroDivisionError
  else Ok (Z.quot (Z.of_nat n) batch_size).

(** [params[key] -= y] on a weight and on a bias. *)
Definition isub_W1 (y : ndarray2) : M unit :=
  fun p => match inplace2 Rminus (W1 p) y with
           | Ok w => (Ok tt, set_W1 w p)
           | Raise e => (Raise e, p)
           end.
Definition isub_W2 (y : ndarray2) : M unit :=
  fun p => match inplace2 Rminus (W2 p) y with
           | Ok w => (Ok tt, set_W2 w p)
           | Raise e => (Raise e, p)
           end.
Definition isub_b1 (y : ndarray1) : M unit :=
  fun p => match inplace1 Rminus (b1 p) y with
           | Ok v => (Ok tt, set_b1 v p)
           | Raise e => (Raise e, p)
           end.
Definition isub_b2 (y : ndarray1) : M unit :=
  fun p => match inplace1 Rminus (b2 p) y with
           | Ok v => (Ok tt, set_b2 v p)
           | Raise e => (Raise e, p)
           end.

(** The body of the loop over the batches, lines 229-233. *)
Definition gradient_step (learning_rate : R) (batch_size : Z)
    (forward_prop_func : forward_t) (backward_prop_func : backward_t)
    (batch_X batch_y : ndarray2) : M unit :=
  params <~ get ;;
  grad <~ lift (backward_prop_func batch_X batch_y params forward_prop_func) ;;
  isub_W1 (mmap (fun g => learning_rate * g) (W1 grad)) ;;;
  isub_W2 (mmap (fun g => learning_rate * g) (W2 grad)) ;;;
  isub_b1 (vmap (fun g => learning_rate * g)
                (vmap (fun g => g / IZR batch_size) (b1 grad))) ;;;
  isub_b2 (vmap (fun g => learning_rate * g)
                (vmap (fun g => g / IZR batch_size) (b2 grad))).

(** [gradient_descent_epoch], lines 198-236. *)
Definition gradient_descent_epoch (train_data train_labels : ndarray2)
    (learning_rate : R) (batch_size : Z)
    (forward_prop_func : forward_t) (backward_prop_func : backward_t) : M unit :=
  batches <~ lift (int_div (mshape0 train_labels) batch_size) ;;
  for_each (seq 0 (Z.to_nat batches)) (fun i =>
    let begin_ := (Z.of_nat i * batch_size)%Z in
    let end_ := (begin_ + batch_size)%Z in
    let batch_X := slice_rows train_data begin_ end_ in
    let batch_y := slice_rows train_labels begin_ end_ in
    gradient_step learning_rate batch_size forward_prop_func backward_prop_func
                  batch_X batch_y).

(** ** Evaluation and the training loop *)

Fixpoint count_upto (f : nat -> bool) (n : nat) : nat :=
  match n with
  | O => O
  | S k => (count_upto f k + if f k then 1 else 0)%nat
  end.

(** [compute_accuracy], lines 269-272.  Comparing two index vectors whose
    lengths do not broadcast is an error. *)
Definition compute_accuracy (output labels : ndarray2) : result R :=
  '(no, ao) <- argmax_axis1 output ;;
  '(nl, al) <- argmax_axis1 labels ;;
  n <- broadcast_dim no nl ;;
  let hits := count_upto (fun i => (ao (bidx no i) =? al (bidx nl i))%nat) n in
  Ok (INR hits * 1 / INR (mshape0 labels)).

(** What [nn_train] returns: [params, cost_train, cost_dev, accuracy_train,
    accuracy_dev]. *)
Definition train_out : Type := (Params * list R * list R * list R * list R)%type.

(** The loop over the epochs, lines 251-260; [epochs] is [range(num_epochs)]. *)
Fixpoint train_epochs (epochs : list nat)
    (train_data train_labels dev_data dev_labels : ndarray2)
    (forward_prop_func : forward_t) (backward_prop_func : backward_t)
    (learning_rate : R) (batch_size : Z) (st : train_out) : result train_out :=
  match epochs with
  | [] => Ok st
  | _ :: rest =>
      let '(params, cost_train, cost_dev, accuracy_train, accuracy_dev) := st in
      match gradient_descent_epoch train_data train_labels learning_rate
              batch_size forward_prop_func backward_prop_func params with
      | (Raise e, _) => Raise e
      | (Ok _, params) =>
          '(_, output, cost) <- forward_prop_func train_data train_labels params ;;
          let cost_train := cost_train ++ [cost] in
          acc <- compute_accuracy output train_labels ;;
          let accuracy_train := accuracy_train ++ [acc] in
          '(_, output, cost) <- forward_prop_func dev_data dev_labels params ;;
          let cost_dev := cost_dev ++ [cost] in
          acc <- compute_accuracy output dev_labels ;;
          let accuracy_dev := accuracy_dev ++ [acc] in
          train_epochs rest train_data train_labels dev_data dev_labels
            forward_prop_func backward_prop_func learning_rate batch_size
            (params, cost_train, cost_dev, accuracy_train, accuracy_dev)
      end
  end.

(** [nn_train], lines 238-262; the store is the random generator. *)
Definition nn_train (train_data train_labels dev_data dev_labels : ndarray2)
    (get_initial_params_func : Z -> Z -> Z -> ST nat Params)
    (forward_prop_func : forward_t) (backward_prop_func : backward_t)
    (num_hidden : Z) (learning_rate : R) (num_epochs : Z) (batch_size : Z)
  : ST nat train_out :=
  let dim := mshape1 train_data in
  params <~ get_initial_params_func (Z.of_nat dim) num_hidden 10%Z ;;
  lift (train_epochs (seq 0 (Z.to_nat num_epochs))
          train_data train_labels dev_data dev_labels
          forward_prop_func backward_prop_func learning_rate batch_size
          (params, [], [], [], [])).

(** ** Comparing outcomes

    Two outcomes agree when both raise the same exception or both return,
    with related values. *)
Definition result_rel {A : Type} (rel : A -> A -> Prop) (r1 r2 : result A) : Prop :=
  match r1, r2 with
  | Ok a, Ok b => rel a b
  | Raise e1, Raise e2 => e1 = e2
  | _, _ => False
  end.

(** ** The batches as the specification describes them

    The training set is cut into [floor(N / batch_size)] windows of
    [batch_size] consecutive rows, in the order of the rows: window [k]
    holds the rows [k * batch_size .. k * batch_size + batch_size - 1]; the
    rows after the last full window belong to no batch.  The optimizer is
    then one gradient step per batch, in order. *)

Definition rows_window (x : ndarray2) (start len : nat) : ndarray2 :=
  mkMat len (mshape1 x) (fun i j => mat x (start + i) j).

Definition contiguous_batches (data labels : ndarray2) (batch_size : nat)
  : list (ndarray2 * ndarray2) :=
  map (fun k => (rows_window data (k * batch_size) batch_size,
                 rows_window labels (k * batch_size) batch_size))
      (seq 0 (mshape0 labels / batch_size)).

Fixpoint run_batches (step : ndarray2 -> ndarray2 -> M unit)
    (batches : list (ndarray2 * ndarray2)) : M unit :=
  match batches with
  | [] => sret tt
  | (batch_X, batch_y) :: rest => step batch_X batch_y ;;; run_batches step rest
  end.

(** ** Well-shaped inputs

    The shapes of section 3 of the specification: [N] samples of dimension
    [D] with labels over [C >= 1] classes, and a network of hidden width
    [H]. *)

Definition params_shape (params : Params) (D H C : nat) : Prop :=
  mshape0 (W1 params) = D /\ mshape1 (W1 params) = H /\
  vshape0 (b1 params) = H /\
  mshape0 (W2 params) = H /\ mshape1 (W2 params) = C /\
  vshape0 (b2 params) = C.

Definition batch_shape (data labels : ndarray2) (N D C : nat) : Prop :=
  mshape0 data = N /\ mshape1 data = D /\
  mshape0 labels = N /\ mshape1 labels = C.

(** ** The plain backward pass as if it used its argument

    [backward_prop] with the forward pass taken from [forward_prop_func],
    the reading under which the plain pass "invokes the supplied
    function"; compared with the source's [backward_prop] below. *)
Definition backward_prop_invoking_argument (data labels : ndarray2)
    (params : Params) (forward_prop_func : forward_t) : result Params :=
  let W2 := W2 params in
  '(a1, a2, _) <- forward_prop_func data labels params ;;
  let n := mshape0 data in
  d1 <- ew2 Rminus a2 labels ;;
  dW2 <- dot (transpose a1) d1 ;;
  let dW2 := mmap (fun v => v / INR n) dW2 in
  let db2 := sum_axis0_row d1 in
  t <- dot d1 (transpose W2) ;;
  s <- ew2 Rmult a1 (mmap (fun v => 1 - v) a1) ;;
  d2 <- ew2 Rmult t s ;;
  dW1 <- dot (transpose data) d2 ;;
  let dW1 := mmap (fun v => v / INR n) dW1 in
  let db1 := sum_axis0_row d2 in
  Ok (mkParams dW1 db1 dW2 db2).

(** A forward pass that always raises. *)
Definition raising_forward : forward_t := fun _ _ _ => Raise ValueError.

(** ** Concrete inputs

    Five samples of dimension 2 with one-hot labels over 2 classes, and a
    network of hidden width 3. *)
Definition ex_data : ndarray2 :=
  of_rows 2 [[1; 2]; [3; 4]; [5; 6]; [7; 8]; [9; 10]].
Definition ex_labels : ndarray2 :=
  of_rows 2 [[1; 0]; [0; 1]; [1; 0]; [0; 1]; [1; 0]].
Definition ex_params : Params :=
  mkParams (of_rows 3 [[1; 0; -1]; [0; 1; 1]]) (of_list [0; 0; 0])
           (of_rows 2 [[1; -1]; [0; 1]; [1; 1]]) (of_list [0; 0]).

(** Two samples of dimension 2 with one-hot labels over 10 classes, one
    held-out sample, and a sequence of samples for the random source. *)
Definition ex10_data : ndarray2 := of_rows 2 [[1; 2]; [3; 4]].
Definition ex10_labels : ndarray2 :=
  of_rows 10 [[0; 0; 0; 1; 0; 0; 0; 0; 0; 0]; [0; 0; 0; 0; 0; 0; 0; 1; 0; 0]].
Definition ex10_dev_data : ndarray2 := of_rows 2 [[5; 6]].
Definition ex10_dev_labels : ndarray2 :=
  of_rows 10 [[1; 0; 0; 0; 0; 0; 0; 0; 0; 0]].
Definition ex_normal : nat -> R := fun k => INR k / 10 - 1.

(** A computation on the parameter store that keeps the shape of every
    entry, whether it returns or raises. *)
Definition keeps_shape {A : Type} (m : M A) : Prop :=
  forall p D H C, params_shape p D H C -> params_shape (snd (m p)) D H C.

(** A computation on the parameter store that leaves every entry of the
    store as it found it, whether it returns or raises. *)
Definition preserves_params {A : Type} (m : M A) : Prop :=
  forall p, params_eq (snd (m p)) p.

(** ** Testing, label encoding and the train-and-test driver *)

(** [nn_test], lines 264-267: the forward pass is the module-level
    [forward_prop]. *)
Definition nn_test (data labels : ndarray2) (params : Params) : result R :=
  '(h, output, cost) <- forward_prop data labels params ;;
  accuracy <- compute_accuracy output labels ;;
  Ok accuracy.

(** [astype(int)] on a float: truncation towards zero. *)
Definition astype_int (v : R) : Z :=
  if Rle_dec 0 v then Int_part v else (- Int_part (- v))%Z.

(** An index [k] into an axis of length [n] is accepted from [-n] to
    [n - 1]; a negative one counts from the end. *)
Definition index_in_bounds (n k : Z) : bool := ((- n <=? k) && (k <? n))%Z.
Definition wrap_index (n k : Z) : Z := if (k <? 0)%Z then (k + n)%Z else k.

Fixpoint all_upto (f : nat -> bool) (n : nat) : bool :=
  match n with
  | O => true
  | S k => all_upto f k && f k
  end.

(** [one_hot_labels], lines 274-277, on a 1-d array of labels.  The indexed
    assignment raises [IndexError], here [None], when a label is not an
    index into the 10 columns. *)
Definition one_hot_labels (labels : ndarray1) : option ndarray2 :=
  let size := vshape0 labels in
  let index := fun i => astype_int (vec labels i) in
  if all_upto (fun i => index_in_bounds 10 (index i)) size
  then Some (mkMat size 10 (fun i j =>
         if (wrap_index 10 (index i) =? Z.of_nat j)%Z then 1 else 0))
  else None.

(** The dictionaries [all_data] and [all_labels] of [run_train_test], with
    the keys ['train'], ['dev'] and ['test']. *)
Record Splits : Type := mkSplits {
  train : ndarray2;
  dev : ndarray2;
  test : ndarray2
}.

(** [run_train_test], lines 284-318, with the module's generator
    [std_normal]: the value it returns and the exceptions of its
    computation.  The figure it saves when [plot] is set and the line it
    prints, the only uses of [name], are outside this model. *)
Definition run_train_test (std_normal : nat -> R) (all_data all_labels : Splits)
    (backward_prop_func : backward_t) (num_epochs : Z) : ST nat R :=
  out <~ nn_train (train all_data) (train all_labels)
           (dev all_data) (dev all_labels)
           (get_initial_params std_normal) forward_prop backward_prop_func
           300 5 num_epochs 1000 ;;
  let '(params, cost_train, cost_dev, accuracy_train, accuracy_dev) := out in
  accuracy <~ lift (nn_test (test all_data) (test all_labels) params) ;;
  sret accuracy.

(** Two parameter stores whose entries have the same shapes. *)
Definition same_shapes (p q : Params) : Prop :=
  mshape0 (W1 p) = mshape0 (W1 q) /\ mshape1 (W1 p) = mshape1 (W1 q) /\
  vshape0 (b1 p) = vshape0 (b1 q) /\
  mshape0 (W2 p) = mshape0 (W2 q) /\ mshape1 (W2 p) = mshape1 (W2 q) /\
  vshape0 (b2 p) = vshape0 (b2 q).

(** A computation on the parameter store that never reshapes an entry. *)
Definition never_reshapes {A : Type} (m : M A) : Prop :=
  forall p, same_shapes (snd (m p)) p.

(** ** The activation functions in binary64

    [softmax] and [sigmoid] are defined a second time here, over the
    binary64 numbers of IEEE 754 that a numpy [float64] array holds, so that
    their results after rounding can be computed.  Addition, subtraction,
    multiplication, division and comparison are the primitive operations on
    [float]; [np.exp], [np.sum] and [np.max] follow. *)

Record farray2 : Type := mkFMat {
  fshape0 : nat;
  fshape1 : nat;
  fmat : nat -> nat -> float
}.

Definition fof_rows (ncols : nat) (l : list (list float)) : farray2 :=
  mkFMat (length l) ncols (fun i j => nth j (nth i l []) 0%float).

(** *** [np.exp]

    numpy leaves the exponential of a [float64] to a routine of the
    platform, whose result is the binary64 number nearest to [e^x] or, now
    and then, that number's neighbour.  [exp64] is the nearest one: [e^x] is
    evaluated in fixed point with 256 binary places, many more than the 53
    of a binary64 number, as [2^k * exp r] with [r = x - k ln 2] and
    [|r| <= ln 2 / 2], and is rounded to nearest, ties to even.  The result
    is 0 below -745.14, where [e^x] is less than half the smallest positive
    number, and infinite above 709.79; beyond -746 and 710 [exp64] gives it
    at once. *)

Definition fix_bits : Z := 256.
Definition fix_one : Z := Z.shiftl 1 fix_bits.

(** [1 / (k 2^k) + 1 / ((k+1) 2^(k+1)) + ...], [n] terms, in fixed point. *)
Fixpoint ln2_terms (n : nat) (k : Z) : Z :=
  match n with
  | O => 0%Z
  | S n' => (Z.shiftl 1 (fix_bits - k) / k + ln2_terms n' (k + 1))%Z
  end.

(** [ln 2], the sum of [1 / (k 2^k)] over [k >= 1]. *)
Definition ln2_fix : Z := Eval vm_compute in ln2_terms 256 1.

(** [term + term * r / i + term * r^2 / (i (i+1)) + ...], [n] terms. *)
Fixpoint exp_terms (n : nat) (i : Z) (term r : Z) : Z :=
  match n with
  | O => 0%Z
  | S n' =>
      (term + exp_terms n' (i + 1) (Z.shiftr (term * r) fix_bits / i) r)%Z
  end.

(** The binary64 number [(-1)^s m 2^e] in fixed point. *)
Definition fix_of_finite (s : bool) (m : positive) (e : Z) : Z :=
  let v := Z.shiftl (Z.pos m) (e + fix_bits) in
  if s then (- v)%Z else v.

Definition exp64 (x : float) : float :=
  match Prim2SF x with
  | S754_nan => x
  | S754_zero _ => 1%float
  | S754_infinity s => if s then 0%float else infinity
  | S754_finite s m e =>
      if (710 <? x)%float then infinity
      else if (x <? -746)%float then 0%float
      else
        let xf := fix_of_finite s m e in
        let k := ((2 * xf + ln2_fix) / (2 * ln2_fix))%Z in
        let r := (xf - k * ln2_fix)%Z in
        SF2Prim (binary_normalize prec emax (exp_terms 64 1 fix_one r)
                                  (k - fix_bits) false)
  end.

(** *** [np.sum] and [np.max] along a row

    numpy adds a row of fewer than 8 numbers from left to right; a row of up
    to 128 numbers is added in 8 interleaved partial sums, which are combined
    pairwise before the numbers after the last full group of 8 are added;
    a longer row is split in two. *)

(** [acc + a start + ... + a (start + n - 1)], in this order. *)
Fixpoint fsum_seq (a : nat -> float) (start n : nat) (acc : float) : float :=
  match n with
  | O => acc
  | S k => fsum_seq a (S start) k (acc + a start)%float
  end.

(** [acc + a pos + a (pos + 8) + ...], [n] terms after [acc]. *)
Fixpoint lane_sum (a : nat -> float) (pos n : nat) (acc : float) : float :=
  match n with
  | O => acc
  | S k => lane_sum a (pos + 8) k (acc + a pos)%float
  end.

(** The sum of [a start, ..., a (start + n - 1)]; [fuel] bounds the number
    of times a row is split, and [n] is enough. *)
Fixpoint pairwise_sum (fuel : nat) (a : nat -> float) (start n : nat) : float :=
  if (n <? 8)%nat then fsum_seq a start n 0%float
  else if (n <=? 128)%nat then
    let r := fun j => lane_sum a (start + 8 + j) (n / 8 - 1) (a (start + j)%nat) in
    let res := PrimFloat.add
                 (PrimFloat.add (PrimFloat.add (r 0%nat) (r 1%nat))
                                (PrimFloat.add (r 2%nat) (r 3%nat)))
                 (PrimFloat.add (PrimFloat.add (r 4%nat) (r 5%nat))
                                (PrimFloat.add (r 6%nat) (r 7%nat))) in
    fsum_seq a (start + 8 * (n / 8)) (n mod 8) res
  else
    match fuel with
    | O => 0%float
    | S fuel' =>
        let n2 := (n / 2 - (n / 2) mod 8)%nat in
        PrimFloat.add (pairwise_sum fuel' a start n2)
                      (pairwise_sum fuel' a (start + n2) (n - n2))
    end.

(** The sum of [a 0, ..., a (n - 1)]: the identity of the reduction, to
    which the pairwise sum is added.  The identity and the start of a short
    sum are zeros, whose sign shows only in a sum of zeros. *)
Definition sum64 (a : nat -> float) (n : nat) : float :=
  (0 + pairwise_sum n a 0 n)%float.

(** [np.maximum] as the reduction applies it: the running maximum [a] stays
    when it is not less than [b] and when it is a NaN. *)
Definition maximum64 (a b : float) : float :=
  if (b <=? a)%float || is_nan a then a else b.

(** The maximum of [f 0, ..., f n]. *)
Fixpoint fmax_from (f : nat -> float) (n : nat) : float :=
  match n with
  | O => f O
  | S k => maximum64 (fmax_from f k) (f (S k))
  end.

Definition few2 (f : float -> float -> float) (x y : farray2) : result farray2 :=
  r <- broadcast_dim (fshape0 x) (fshape0 y) ;;
  c <- broadcast_dim (fshape1 x) (fshape1 y) ;;
  Ok (mkFMat r c (fun i j =>
        f (fmat x (bidx (fshape0 x) i) (bidx (fshape1 x) j))
          (fmat y (bidx (fshape0 y) i) (bidx (fshape1 y) j)))).

Definition fmmap (f : float -> float) (x : farray2) : farray2 :=
  mkFMat (fshape0 x) (fshape1 x) (fun i j => f (fmat x i j)).

Definition famax_axis1 (x : farray2) : result farray2 :=
  if (fshape1 x =? 0)%nat then Raise ValueError
  else Ok (mkFMat (fshape0 x) 1 (fun i _ => fmax_from (fmat x i) (fshape1 x - 1))).

Definition fsum_axis1_keepdims (x : farray2) : farray2 :=
  mkFMat (fshape0 x) 1 (fun i _ => sum64 (fmat x i) (fshape1 x)).

(** *** The two functions *)

(** [softmax], lines 5-17, in binary64. *)
Definition softmax64 (x : farray2) : result farray2 :=
  n <- famax_axis1 x ;;
  xn <- few2 PrimFloat.sub x n ;;
  xn' <- few2 PrimFloat.sub x n ;;
  few2 PrimFloat.div (fmmap exp64 xn) (fsum_axis1_keepdims (fmmap exp64 xn')).

(** One entry of [sigmoid] in binary64.  A NaN is in neither mask: its [z]
    stays 0 and its numerator 1. *)
Definition sigmoid_entry64 (x : float) : float :=
  (let z := if 0 <=? x then exp64 (- x)
            else if x <? 0 then exp64 x else 0 in
   let denominator := 1 + z in
   let numerator := if x <? 0 then z else 1 in
   numerator / denominator)%float.

(** [sigmoid], lines 20-43, in binary64. *)
Definition sigmoid64 (x : farray2) : farray2 :=
  fmmap sigmoid_entry64 x.

(** Rows with entries of large magnitude, and a row on which [sigmoid]
    saturates. *)
Definition ex_large64 : farray2 :=
  fof_rows 2 [[1000; -1000]; [0; 710]]%float.

(** * Properties *)

(** ** Index-range reductions *)

Lemma sum_upto_ext (f g : nat -> R) (n : nat) :
  (forall k, (k < n)%nat -> f k = g k) -> sum_upto f n = sum_upto g n.
Proof.
  induction n as [|n IH]; intros H; simpl; [reflexivity|].
  rewrite IH by (intros; apply H; lia).
  rewrite (H n) by lia. reflexivity.
Qed.

Lemma sum_upto_div (f : nat -> R) (c : R) (n : nat) :
  sum_upto (fun k => f k / c) n = sum_upto f n / c.
Proof.
  induction n as [|n IH]; simpl.
  - unfold Rdiv. ring.
  - rewrite IH. unfold Rdiv. ring.
Qed.

Lemma sum_upto_nonneg (f : nat -> R) (n : nat) :
  (forall k, (k < n)%nat -> 0 <= f k) -> 0 <= sum_upto f n.
Proof.
  induction n as [|n IH]; intros H; simpl; [lra|].
  assert (0 <= sum_upto f n) by (apply IH; intros; apply H; lia).
  assert (0 <= f n) by (apply H; lia). lra.
Qed.

Lemma sum_upto_ge_term (f : nat -> R) (n j : nat) :
  (forall k, (k < n)%nat -> 0 <= f k) -> (j < n)%nat -> f j <= sum_upto f n.
Proof.
  induction n as [|n IH]; intros H Hj; [lia|]. simpl.
  assert (Hn : 0 <= f n) by (apply H; lia).
  assert (Hs : 0 <= sum_upto f n) by (apply sum_upto_nonneg; intros; apply H; lia).
  destruct (Nat.eq_dec j n) as [->|Hne]; [lra|].
  assert (f j <= sum_upto f n) by (apply IH; [intros; apply H; lia | lia]). lra.
Qed.



(** ** Broadcasting *)

Lemma broadcast_dim_refl (a : nat) : broadcast_dim a a = Ok a.
Proof. unfold broadcast_dim. rewrite Nat.eqb_refl. reflexivity. Qed.

Lemma broadcast_dim_one_r (a : nat) : broadcast_dim a 1 = Ok a.
Proof.
  unfold broadcast_dim. destruct (Nat.eqb_spec a 1) as [->|_]; reflexivity.
Qed.

Lemma broadcast_dim_inv (a b c : nat) :
  broadcast_dim a b = Ok c ->
  (a = b /\ c = a) \/ (a = 1%nat /\ c = b) \/ (b = 1%nat /\ c = a).
Proof.
  unfold broadcast_dim.
  destruct (Nat.eqb_spec a b); [intros [= <-]; auto|].
  destruct (Nat.eqb_spec a 1); [intros [= <-]; auto|].
  destruct (Nat.eqb_spec b 1); [intros [= <-]; auto|].
  discriminate.
Qed.

Lemma bidx_lt (d i : nat) : (i < d)%nat -> bidx d i = i.
Proof.
  unfold bidx. destruct (Nat.eqb_spec d 1); intros; lia.
Qed.

(** ** Activation functions *)

Lemma softmax_value (x : ndarray2) :
  (1 <= mshape1 x)%nat ->
  softmax x =
  Ok (mkMat (mshape0 x) (mshape1 x) (fun i j =>
        exp (mat x (bidx (mshape0 x) (bidx (mshape0 x) i))
                   (bidx (mshape1 x) (bidx (mshape1 x) j))
             - max_from (mat x (bidx (mshape0 x) (bidx (mshape0 x) i)))
                        (mshape1 x - 1))
        / sum_upto (fun k =>
              exp (mat x (bidx (mshape0 x) (bidx (mshape0 x) i))
                         (bidx (mshape1 x) k)
                   - max_from (mat x (bidx (mshape0 x) (bidx (mshape0 x) i)))
                              (mshape1 x - 1)))
            (mshape1 x))).
Proof.
  intros Hc. destruct x as [r c f]. simpl in *.
  unfold softmax, amax_axis1, ew2, sum_axis1_keepdims, mmap. simpl.
  destruct (Nat.eqb_spec c 0) as [->|_]; [lia|]. simpl.
  rewrite !broadcast_dim_refl. simpl.
  rewrite !broadcast_dim_one_r. simpl.
  rewrite !broadcast_dim_refl. simpl.
  rewrite !broadcast_dim_one_r. simpl.
  reflexivity.
Qed.



Lemma sigmoid_entry_nonneg (v : R) :
  0 <= v -> sigmoid_entry v = 1 / (1 + exp (- v)).
Proof.
  intros Hv. unfold sigmoid_entry.
  destruct (Rge_dec v 0) as [_|Hn]; [|lra].
  destruct (Rlt_dec v 0); [lra | reflexivity].
Qed.

Lemma sigmoid_entry_neg (v : R) :
  v < 0 -> sigmoid_entry v = exp v / (1 + exp v).
Proof.
  intros Hv. unfold sigmoid_entry.
  destruct (Rge_dec v 0) as [Hge|_]; [lra|].
  destruct (Rlt_dec v 0); [reflexivity | lra].
Qed.

(** Over the reals the exponential is never 0, and the bounds are strict. *)
Lemma sigmoid_entry_range (v : R) : 0 < sigmoid_entry v < 1.
Proof.
  destruct (Rlt_dec v 0) as [Hv|Hv].
  - rewrite sigmoid_entry_neg by exact Hv.
    pose proof (exp_pos v) as He. split.
    + apply Rdiv_lt_0_compat; lra.
    + apply (Rmult_lt_reg_r (1 + exp v)); [lra|].
      unfold Rdiv. rewrite Rmult_assoc, Rinv_l by lra. lra.
  - rewrite sigmoid_entry_nonneg by lra.
    pose proof (exp_pos (- v)) as He. split.
    + apply Rdiv_lt_0_compat; lra.
    + apply (Rmult_lt_reg_r (1 + exp (- v))); [lra|].
      unfold Rdiv. rewrite Rmult_assoc, Rinv_l by lra. lra.
Qed.




(** ** Shapes along the forward and backward pass *)

Ltac bind_step :=
  match goal with
  | H : rbind ?m _ = Ok _ |- _ =>
      let E := fresh "E" in
      destruct m eqn:E; simpl in H; [|discriminate H]
  end.

Lemma dot_inv (x y z : ndarray2) :
  dot x y = Ok z ->
  mshape1 x = mshape0 y /\ mshape0 z = mshape0 x /\ mshape1 z = mshape1 y /\
  forall i j, mat z i j = sum_upto (fun k => mat x i k * mat y k j) (mshape1 x).
Proof.
  unfold dot. destruct (Nat.eqb_spec (mshape1 x) (mshape0 y)); [|discriminate].
  intros [= <-]. simpl. auto.
Qed.

Lemma ew2_inv (f : R -> R -> R) (x y z : ndarray2) :
  ew2 f x y = Ok z ->
  broadcast_dim (mshape0 x) (mshape0 y) = Ok (mshape0 z) /\
  broadcast_dim (mshape1 x) (mshape1 y) = Ok (mshape1 z) /\
  forall i j, mat z i j =
    f (mat x (bidx (mshape0 x) i) (bidx (mshape1 x) j))
      (mat y (bidx (mshape0 y) i) (bidx (mshape1 y) j)).
Proof.
  unfold ew2. intros H. do 2 bind_step. injection H as <-. simpl. auto.
Qed.

Lemma ew21_inv (f : R -> R -> R) (x z : ndarray2) (v : ndarray1) :
  ew21 f x v = Ok z ->
  mshape0 z = mshape0 x /\
  broadcast_dim (mshape1 x) (vshape0 v) = Ok (mshape1 z) /\
  forall i j, mat z i j =
    f (mat x i (bidx (mshape1 x) j)) (vec v (bidx (vshape0 v) j)).
Proof.
  unfold ew21. intros H. bind_step. injection H as <-. simpl. auto.
Qed.

Lemma softmax_inv (x y : ndarray2) :
  softmax x = Ok y ->
  (1 <= mshape1 x)%nat /\ mshape0 y = mshape0 x /\ mshape1 y = mshape1 x.
Proof.
  intros H.
  assert (Hc : (1 <= mshape1 x)%nat).
  { unfold softmax, amax_axis1 in H.
    destruct (Nat.eqb_spec (mshape1 x) 0); [discriminate H | lia]. }
  rewrite (softmax_value x Hc) in H. injection H as <-. simpl. auto.
Qed.

Lemma broadcast_dim_back (a b c : nat) :
  broadcast_dim a b = Ok c -> broadcast_dim c a = Ok c.
Proof.
  intros H. destruct (broadcast_dim_inv _ _ H) as [[-> ->]|[[-> ->]|[-> ->]]].
  - apply broadcast_dim_refl.
  - apply broadcast_dim_one_r.
  - apply broadcast_dim_refl.
Qed.

Lemma forward_prop_shapes (data labels : ndarray2) (params : Params)
    (a1 a2 : ndarray2) (loss : R) :
  forward_prop data labels params = Ok (a1, a2, loss) ->
  mshape1 data = mshape0 (W1 params) /\
  mshape0 a1 = mshape0 data /\
  broadcast_dim (mshape1 (W1 params)) (vshape0 (b1 params)) = Ok (mshape1 a1) /\
  mshape1 a1 = mshape0 (W2 params) /\
  mshape0 a2 = mshape0 data /\
  broadcast_dim (mshape1 (W2 params)) (vshape0 (b2 params)) = Ok (mshape1 a2) /\
  (1 <= mshape1 a2)%nat /\
  (1 <= mshape0 labels)%nat.
Proof.
  unfold forward_prop. intros H. do 5 bind_step.
  destruct (Nat.eqb_spec (mshape0 labels) 0) as [|Hn]; [discriminate H|].
  bind_step. injection H as <- <- _.
  apply dot_inv in E as (? & ? & ? & _).
  apply ew21_inv in E0 as (? & ? & _).
  apply dot_inv in E1 as (? & ? & ? & _).
  apply ew21_inv in E2 as (? & ? & _).
  apply softmax_inv in E3 as (? & ? & ?).
  simpl in *. repeat split; try congruence; lia.
Qed.

Lemma backward_prop_shapes (data labels : ndarray2) (params grad : Params)
    (f : forward_t) :
  backward_prop data labels params f = Ok grad ->
  mshape0 (W1 grad) = mshape0 (W1 params) /\
  broadcast_dim (mshape1 (W1 params)) (vshape0 (b1 params)) = Ok (mshape1 (W1 grad)) /\
  vshape0 (b1 grad) = mshape1 (W1 grad) /\
  mshape0 (W2 grad) = mshape0 (W2 params) /\
  mshape1 (W2 grad) = mshape1 (W2 params) /\
  vshape0 (b2 grad) = mshape1 (W2 params).
Proof.
  unfold backward_prop. intros H. bind_step.
  destruct a as [[a1 a2] loss]. do 6 bind_step. injection H as <-. simpl.
  apply forward_prop_shapes in E as (? & ? & ? & ? & ? & ? & ? & ?).
  apply ew2_inv in E0 as (? & ? & _).
  apply dot_inv in E1 as (? & ? & ? & _).
  apply dot_inv in E2 as (? & ? & ? & _).
  apply ew2_inv in E3 as (? & ? & _).
  apply ew2_inv in E4 as (? & ? & _).
  apply dot_inv in E5 as (? & ? & ? & _).
  simpl in *.
  rewrite broadcast_dim_refl in *.
  repeat match goal with H : Ok _ = Ok _ |- _ => injection H as H end.
  assert (Hc : mshape1 a3 = mshape1 a4) by congruence.
  rewrite Hc, broadcast_dim_refl in H18. injection H18 as H18.
  repeat split; try congruence.
Qed.

Lemma backward_prop_regularized_unfold (data labels : ndarray2) (params : Params)
    (f f' : forward_t) (reg : R) :
  backward_prop_regularized data labels params f reg =
  (grad <- backward_prop data labels params f' ;;
   dW2 <- inplace2 Rplus (W2 grad) (mmap (fun w => reg * w * 2) (W2 params)) ;;
   dW1 <- inplace2 Rplus (W1 grad) (mmap (fun w => reg * w * 2) (W1 params)) ;;
   Ok (mkParams dW1 (b1 grad) dW2 (b2 grad))).
Proof.
  unfold backward_prop_regularized, backward_prop.
  destruct (forward_prop data labels params) as [[[a1 a2] loss]|e]; simpl;
    [|reflexivity].
  repeat match goal with
  | |- context [rbind ?m _] =>
      match m with
      | ew2 _ _ _ => idtac
      | dot _ _ => idtac
      end;
      destruct m; simpl; [|reflexivity]
  end.
  reflexivity.
Qed.

Lemma inplace2_ok (f : R -> R -> R) (x y : ndarray2) :
  mshape0 y = mshape0 x ->
  broadcast_dim (mshape1 x) (mshape1 y) = Ok (mshape1 x) ->
  inplace2 f x y =
  Ok (mkMat (mshape0 x) (mshape1 x) (fun i j =>
        f (mat x i j) (mat y (bidx (mshape0 y) i) (bidx (mshape1 y) j)))).
Proof.
  intros H0 H1. unfold inplace2. rewrite H0, broadcast_dim_refl. simpl.
  rewrite H1. simpl. rewrite !Nat.eqb_refl. reflexivity.
Qed.

(** C1 — with [reg = 0] the regularized backward pass has the same outcome
    as the plain one on the same inputs: both raise the same exception, or
    both return gradients whose entries [W1], [b1], [W2], [b2] have the
    same shapes and are equal element by element. *)
Theorem backward_prop_regularized_zero_reg (data labels : ndarray2)
    (params : Params) (f g : forward_t) :
  result_rel params_eq
    (backward_prop_regularized data labels params f 0)
    (backward_prop data labels params g).
Proof.
  rewrite (backward_prop_regularized_unfold data labels params f g).
  destruct (backward_prop data labels params g) as [grad|e] eqn:E; simpl;
    [|reflexivity].
  apply backward_prop_shapes in E as (H1 & H2 & H3 & H4 & H5 & H6).
  rewrite inplace2_ok; simpl.
  2: symmetry; exact H4.
  2: rewrite H5; apply broadcast_dim_refl.
  rewrite inplace2_ok; simpl.
  2: symmetry; exact H1.
  2: apply (broadcast_dim_back _ _ H2).
  unfold params_eq, mat_eq, vec_eq. simpl.
  repeat split; intros; ring.
Qed.

(** C10, as the code has it — neither backward pass uses its
    [forward_prop_func] argument: both always evaluate the module-level
    [forward_prop], so the gradient is the same whatever function is
    passed, for the regularized pass and for the plain pass alike. *)
Theorem backward_passes_ignore_forward_prop_func (data labels : ndarray2)
    (params : Params) (f : forward_t) (reg : R) :
  backward_prop_regularized data labels params f reg =
    backward_prop_regularized data labels params forward_prop reg /\
  backward_prop data labels params f =
    backward_prop data labels params forward_prop.
Proof.
  split; reflexivity.
Qed.

(** ** Element-wise equality is an equivalence *)

Lemma mat_eq_refl (x : ndarray2) : mat_eq x x.
Proof. unfold mat_eq. auto. Qed.

Lemma vec_eq_refl (x : ndarray1) : vec_eq x x.
Proof. unfold vec_eq. auto. Qed.

Lemma mat_eq_trans (x y z : ndarray2) : mat_eq x y -> mat_eq y z -> mat_eq x z.
Proof.
  intros (H0 & H1 & H) (K0 & K1 & K). unfold mat_eq.
  repeat split; try congruence.
  intros i j Hi Hj. rewrite H by assumption. apply K; congruence.
Qed.

Lemma vec_eq_trans (x y z : ndarray1) : vec_eq x y -> vec_eq y z -> vec_eq x z.
Proof.
  intros (H0 & H) (K0 & K). unfold vec_eq.
  split; try congruence.
  intros j Hj. rewrite H by assumption. apply K; congruence.
Qed.

Lemma params_eq_refl (p : Params) : params_eq p p.
Proof.
  unfold params_eq. auto using mat_eq_refl, vec_eq_refl.
Qed.

Lemma params_eq_trans (p q r : Params) :
  params_eq p q -> params_eq q r -> params_eq p r.
Proof.
  intros (A1 & A2 & A3 & A4) (B1 & B2 & B3 & B4). unfold params_eq.
  split; [exact (mat_eq_trans A1 B1)|].
  split; [exact (vec_eq_trans A2 B2)|].
  split; [exact (mat_eq_trans A3 B3) | exact (vec_eq_trans A4 B4)].
Qed.

(** ** The optimizer with a zero learning rate *)

Lemma preserves_sret (A : Type) (a : A) : preserves_params (sret a).
Proof. intros p. apply params_eq_refl. Qed.

Lemma preserves_lift (A : Type) (r : result A) : preserves_params (lift r).
Proof. intros p. apply params_eq_refl. Qed.

Lemma preserves_get : preserves_params get.
Proof. intros p. apply params_eq_refl. Qed.

Lemma preserves_sbind (A B : Type) (m : M A) (k : A -> M B) :
  preserves_params m -> (forall a, preserves_params (k a)) ->
  preserves_params (sbind m k).
Proof.
  intros Hm Hk p. unfold sbind. specialize (Hm p).
  destruct (m p) as [[a|e] p']; simpl in *.
  - eapply params_eq_trans; [apply Hk | exact Hm].
  - exact Hm.
Qed.

Lemma preserves_for_each (l : list nat) (body : nat -> M unit) :
  (forall i, preserves_params (body i)) -> preserves_params (for_each l body).
Proof.
  intros Hb. induction l as [|i l IH]; simpl.
  - apply preserves_sret.
  - apply preserves_sbind; auto.
Qed.

Lemma inplace2_zero_step (x y w : ndarray2) :
  inplace2 Rminus x (mmap (fun g => 0 * g) y) = Ok w -> mat_eq w x.
Proof.
  unfold inplace2. intros H. do 2 bind_step.
  destruct ((a =? mshape0 x) && (a0 =? mshape1 x))%nat; [|discriminate H].
  injection H as <-. unfold mat_eq. simpl.
  repeat split. intros. ring.
Qed.

Lemma inplace1_zero_step (x y w : ndarray1) :
  inplace1 Rminus x (vmap (fun g => 0 * g) y) = Ok w -> vec_eq w x.
Proof.
  unfold inplace1. intros H. bind_step.
  destruct (a =? vshape0 x)%nat; [|discriminate H].
  injection H as <-. unfold vec_eq. simpl.
  split; [reflexivity|]. intros. ring.
Qed.

Lemma preserves_isub_W1 (y : ndarray2) :
  preserves_params (isub_W1 (mmap (fun g => 0 * g) y)).
Proof.
  intros p. unfold isub_W1.
  destruct (inplace2 _ _ _) as [w|e] eqn:E; simpl; [|apply params_eq_refl].
  apply inplace2_zero_step in E. unfold params_eq. simpl.
  auto using mat_eq_refl, vec_eq_refl.
Qed.

Lemma preserves_isub_W2 (y : ndarray2) :
  preserves_params (isub_W2 (mmap (fun g => 0 * g) y)).
Proof.
  intros p. unfold isub_W2.
  destruct (inplace2 _ _ _) as [w|e] eqn:E; simpl; [|apply params_eq_refl].
  apply inplace2_zero_step in E. unfold params_eq. simpl.
  auto using mat_eq_refl, vec_eq_refl.
Qed.

Lemma preserves_isub_b1 (y : ndarray1) :
  preserves_params (isub_b1 (vmap (fun g => 0 * g) y)).
Proof.
  intros p. unfold isub_b1.
  destruct (inplace1 _ _ _) as [w|e] eqn:E; simpl; [|apply params_eq_refl].
  apply inplace1_zero_step in E. unfold params_eq. simpl.
  auto using mat_eq_refl, vec_eq_refl.
Qed.

Lemma preserves_isub_b2 (y : ndarray1) :
  preserves_params (isub_b2 (vmap (fun g => 0 * g) y)).
Proof.
  intros p. unfold isub_b2.
  destruct (inplace1 _ _ _) as [w|e] eqn:E; simpl; [|apply params_eq_refl].
  apply inplace1_zero_step in E. unfold params_eq. simpl.
  auto using mat_eq_refl, vec_eq_refl.
Qed.

Lemma preserves_gradient_step (batch_size : Z) (fwd : forward_t)
    (bwd : backward_t) (batch_X batch_y : ndarray2) :
  preserves_params (gradient_step 0 batch_size fwd bwd batch_X batch_y).
Proof.
  unfold gradient_step.
  apply preserves_sbind; [apply preserves_get | intros params].
  apply preserves_sbind; [apply preserves_lift | intros grad].
  apply preserves_sbind; [apply preserves_isub_W1 | intros _].
  apply preserves_sbind; [apply preserves_isub_W2 | intros _].
  apply preserves_sbind; [apply preserves_isub_b1 | intros _].
  apply preserves_isub_b2.
Qed.

(** C2 — for every training set, batch size, gradient function and
    parameter store, one optimizer epoch with [learning_rate = 0] leaves
    the store with [W1], [b1], [W2] and [b2] of unchanged shape and
    unchanged entries, also when the epoch ends in an exception. *)
Theorem gradient_descent_epoch_zero_learning_rate
    (train_data train_labels : ndarray2) (batch_size : Z)
    (fwd : forward_t) (bwd : backward_t) (params : Params) :
  params_eq
    (snd (gradient_descent_epoch train_data train_labels 0 batch_size
            fwd bwd params))
    params.
Proof.
  revert params. change (preserves_params
    (gradient_descent_epoch train_data train_labels 0 batch_size fwd bwd)).
  unfold gradient_descent_epoch.
  apply preserves_sbind; [apply preserves_lift | intros batches].
  apply preserves_for_each. intros i. apply preserves_gradient_step.
Qed.

(** ** The batches of one epoch *)

Lemma int_div_pos (n : nat) (b : Z) :
  (0 < b)%Z -> int_div n b = Ok (Z.of_nat (n / Z.to_nat b)).
Proof.
  intros Hb. unfold int_div.
  destruct (Z.eqb_spec b 0) as [->|_]; [lia|].
  rewrite Z.quot_div_nonneg by lia.
  rewrite Nat2Z.inj_div, Z2Nat.id by lia. reflexivity.
Qed.

Lemma full_batch_fits (n bs k : nat) :
  (0 < bs)%nat -> (k < n / bs)%nat -> (k * bs + bs <= n)%nat.
Proof.
  intros Hbs Hk.
  assert (H : (bs * (n / bs) <= n)%nat) by (apply Nat.Div0.mul_div_le).
  nia.
Qed.

Lemma slice_index_inside (n : nat) (k : Z) :
  (0 <= k <= Z.of_nat n)%Z -> slice_index n k = Z.to_nat k.
Proof.
  intros Hk. unfold slice_index.
  destruct (Z.ltb_spec k 0); [lia|].
  rewrite Z.min_r by lia. reflexivity.
Qed.

Lemma slice_rows_window (x : ndarray2) (b : Z) (k : nat) :
  (0 < b)%Z -> (k * Z.to_nat b + Z.to_nat b <= mshape0 x)%nat ->
  slice_rows x (Z.of_nat k * b) (Z.of_nat k * b + b) =
  rows_window x (k * Z.to_nat b) (Z.to_nat b).
Proof.
  intros Hb Hk. unfold slice_rows, rows_window.
  rewrite !slice_index_inside by nia.
  replace (Z.to_nat (Z.of_nat k * b)) with (k * Z.to_nat b)%nat by nia.
  replace (Z.to_nat (Z.of_nat k * b + b) - k * Z.to_nat b)%nat
    with (Z.to_nat b) by nia.
  reflexivity.
Qed.

Lemma for_each_run_batches (l : list nat) (body : nat -> M unit)
    (step : ndarray2 -> ndarray2 -> M unit) (g : nat -> ndarray2 * ndarray2) :
  (forall i, In i l -> body i = step (fst (g i)) (snd (g i))) ->
  for_each l body = run_batches step (map g l).
Proof.
  induction l as [|i l IH]; intros H; simpl; [reflexivity|].
  rewrite (H i) by (left; reflexivity).
  rewrite IH by (intros; apply H; right; assumption).
  destruct (g i); reflexivity.
Qed.

Lemma epoch_as_batches (train_data train_labels : ndarray2) (lr : R) (b : Z)
    (fwd : forward_t) (bwd : backward_t) :
  (0 < b)%Z -> mshape0 train_data = mshape0 train_labels ->
  gradient_descent_epoch train_data train_labels lr b fwd bwd =
  run_batches (gradient_step lr b fwd bwd)
              (contiguous_batches train_data train_labels (Z.to_nat b)).
Proof.
  intros Hb Hrows. unfold gradient_descent_epoch, contiguous_batches.
  rewrite int_div_pos by exact Hb.
  cbv beta iota delta [sbind lift].
  rewrite Nat2Z.id.
  erewrite <- for_each_run_batches; [reflexivity|].
  intros i Hi. apply in_seq in Hi. simpl.
  assert (Hfit : (i * Z.to_nat b + Z.to_nat b <= mshape0 train_labels)%nat)
    by (apply full_batch_fits; lia).
  rewrite !slice_rows_window by (try exact Hb; lia).
  reflexivity.
Qed.

Lemma epoch_no_batches (train_data train_labels : ndarray2) (lr : R) (b : Z)
    (fwd : forward_t) (bwd : backward_t) (params : Params) :
  (b < 0 \/ Z.of_nat (mshape0 train_labels) < b)%Z ->
  gradient_descent_epoch train_data train_labels lr b fwd bwd params =
  (Ok tt, params).
Proof.
  intros Hb. unfold gradient_descent_epoch, int_div.
  destruct (Z.eqb_spec b 0) as [->|Hne]; [lia|].
  unfold sbind, lift.
  replace (Z.to_nat (Z.quot (Z.of_nat (mshape0 train_labels)) b)) with O;
    [reflexivity|].
  destruct Hb as [Hb|Hb].
  - assert (Z.quot (Z.of_nat (mshape0 train_labels)) b <= 0)%Z; [|lia].
    rewrite <- (Z.opp_involutive b), Z.quot_opp_r by lia.
    assert (0 <= Z.quot (Z.of_nat (mshape0 train_labels)) (- b))%Z; [|lia].
    apply Z.quot_pos; lia.
  - rewrite Z.quot_small by lia. reflexivity.
Qed.

Lemma rows_window_all (x : ndarray2) : rows_window x 0 (mshape0 x) = x.
Proof. destruct x. reflexivity. Qed.

(** ** The passes succeed on well-shaped inputs *)

Lemma dot_ok (x y : ndarray2) :
  mshape1 x = mshape0 y ->
  dot x y = Ok (mkMat (mshape0 x) (mshape1 y)
                  (fun i j => sum_upto (fun k => mat x i k * mat y k j) (mshape1 x))).
Proof.
  intros H. unfold dot. rewrite H, Nat.eqb_refl. reflexivity.
Qed.

Lemma ew2_ok (f : R -> R -> R) (x y : ndarray2) :
  mshape0 y = mshape0 x -> mshape1 y = mshape1 x ->
  ew2 f x y = Ok (mkMat (mshape0 x) (mshape1 x) (fun i j =>
    f (mat x (bidx (mshape0 x) i) (bidx (mshape1 x) j))
      (mat y (bidx (mshape0 y) i) (bidx (mshape1 y) j)))).
Proof.
  intros H0 H1. unfold ew2. rewrite H0, H1, !broadcast_dim_refl. reflexivity.
Qed.

Lemma ew21_ok (f : R -> R -> R) (x : ndarray2) (v : ndarray1) :
  vshape0 v = mshape1 x ->
  ew21 f x v = Ok (mkMat (mshape0 x) (mshape1 x) (fun i j =>
    f (mat x i (bidx (mshape1 x) j)) (vec v (bidx (vshape0 v) j)))).
Proof.
  intros H. unfold ew21. rewrite H, broadcast_dim_refl. reflexivity.
Qed.

Lemma inplace1_ok (f : R -> R -> R) (x y : ndarray1) :
  vshape0 y = vshape0 x ->
  inplace1 f x y =
  Ok (mkVec (vshape0 x) (fun j => f (vec x j) (vec y (bidx (vshape0 y) j)))).
Proof.
  intros H. unfold inplace1. rewrite H, broadcast_dim_refl. simpl.
  rewrite Nat.eqb_refl. reflexivity.
Qed.

Lemma forward_prop_ok (data labels : ndarray2) (params : Params)
    (N D H C : nat) :
  batch_shape data labels N D C -> params_shape params D H C ->
  (1 <= N)%nat -> (1 <= C)%nat ->
  exists a1 a2 loss,
    forward_prop data labels params = Ok (a1, a2, loss) /\
    mshape0 a1 = N /\ mshape1 a1 = H /\ mshape0 a2 = N /\ mshape1 a2 = C.
Proof.
  intros (Hd0 & Hd1 & Hl0 & Hl1) (Hw0 & Hw1 & Hb1 & Hv0 & Hv1 & Hb2) HN HC.
  unfold forward_prop.
  rewrite dot_ok by congruence. simpl.
  rewrite ew21_ok by (simpl; congruence). simpl.
  rewrite dot_ok by (simpl; congruence). simpl.
  rewrite ew21_ok by (simpl; congruence). simpl.
  rewrite softmax_value by (simpl; lia). simpl.
  destruct (Nat.eqb_spec (mshape0 labels) 0); [lia|].
  rewrite ew2_ok by (simpl; congruence). simpl.
  do 3 eexists. split; [reflexivity|]. simpl. auto.
Qed.

Lemma backward_prop_ok (data labels : ndarray2) (params : Params)
    (f : forward_t) (N D H C : nat) :
  batch_shape data labels N D C -> params_shape params D H C ->
  (1 <= N)%nat -> (1 <= C)%nat ->
  exists grad,
    backward_prop data labels params f = Ok grad /\ params_shape grad D H C.
Proof.
  intros Hbs Hps HN HC.
  destruct (forward_prop_ok Hbs Hps HN HC)
    as (a1 & a2 & loss & Hf & Ha10 & Ha11 & Ha20 & Ha21).
  destruct Hbs as (Hd0 & Hd1 & Hl0 & Hl1).
  destruct Hps as (Hw0 & Hw1 & Hb1 & Hv0 & Hv1 & Hb2).
  unfold backward_prop. rewrite Hf. simpl.
  rewrite ew2_ok by congruence. simpl.
  rewrite dot_ok by (simpl; congruence). simpl.
  rewrite dot_ok by (simpl; congruence). simpl.
  rewrite ew2_ok by reflexivity. simpl.
  rewrite ew2_ok by (simpl; congruence). simpl.
  rewrite dot_ok by (simpl; congruence). simpl.
  eexists. split; [reflexivity|].
  unfold params_shape. simpl. repeat split; congruence.
Qed.

Lemma gradient_step_ok (lr : R) (b : Z) (f : forward_t)
    (batch_X batch_y : ndarray2) (params : Params) (N D H C : nat) :
  batch_shape batch_X batch_y N D C -> params_shape params D H C ->
  (1 <= N)%nat -> (1 <= C)%nat ->
  exists params',
    gradient_step lr b f backward_prop batch_X batch_y params = (Ok tt, params') /\
    params_shape params' D H C.
Proof.
  intros Hbs Hps HN HC.
  destruct (backward_prop_ok f Hbs Hps HN HC) as (grad & Hg & Hgs).
  destruct Hps as (Hw0 & Hw1 & Hb1 & Hv0 & Hv1 & Hb2).
  destruct Hgs as (Gw0 & Gw1 & Gb1 & Gv0 & Gv1 & Gb2).
  unfold gradient_step, sbind, get, lift. rewrite Hg.
  unfold isub_W1. rewrite inplace2_ok; simpl;
    [|congruence | rewrite Gw1, Hw1; apply broadcast_dim_refl].
  unfold isub_W2. rewrite inplace2_ok; simpl;
    [|congruence | rewrite Gv1, Hv1; apply broadcast_dim_refl].
  unfold isub_b1. rewrite inplace1_ok; simpl; [|congruence].
  unfold isub_b2. rewrite inplace1_ok; simpl; [|congruence].
  eexists. split; [reflexivity|].
  unfold params_shape. simpl. repeat split; assumption.
Qed.

Lemma run_batches_ok (lr : R) (b : Z) (f : forward_t)
    (batches : list (ndarray2 * ndarray2)) (n D H C : nat) :
  (1 <= n)%nat -> (1 <= C)%nat ->
  Forall (fun xy => batch_shape (fst xy) (snd xy) n D C) batches ->
  forall params, params_shape params D H C ->
  exists params',
    run_batches (gradient_step lr b f backward_prop) batches params
      = (Ok tt, params') /\
    params_shape params' D H C.
Proof.
  intros Hn HC Hall. induction Hall as [|[bx by_] rest Hxy _ IH]; intros params Hps.
  - exists params. split; [reflexivity | exact Hps].
  - simpl in Hxy.
    destruct (gradient_step_ok lr b f Hxy Hps Hn HC) as (p1 & Hstep & Hp1).
    destruct (IH p1 Hp1) as (p2 & Hrest & Hp2).
    exists p2. split; [|exact Hp2].
    simpl. unfold sbind. rewrite Hstep. exact Hrest.
Qed.

Lemma contiguous_batches_shape (data labels : ndarray2) (bs N D C : nat) :
  batch_shape data labels N D C ->
  Forall (fun xy => batch_shape (fst xy) (snd xy) bs D C)
         (contiguous_batches data labels bs).
Proof.
  intros (Hd0 & Hd1 & Hl0 & Hl1). unfold contiguous_batches.
  apply Forall_map, Forall_forall. intros k _.
  unfold batch_shape. simpl. auto.
Qed.

(** On a well-shaped training set and parameter store, an epoch of the
    plain gradient with any positive batch size returns normally, whether
    or not the batch size divides the number of rows. *)
Lemma epoch_ok (train_data train_labels : ndarray2) (lr : R) (b : Z)
    (f : forward_t) (params : Params) (N D H C : nat) :
  batch_shape train_data train_labels N D C -> params_shape params D H C ->
  (0 < b)%Z -> (1 <= C)%nat ->
  exists params',
    gradient_descent_epoch train_data train_labels lr b f backward_prop params
      = (Ok tt, params') /\
    params_shape params' D H C.
Proof.
  intros Hbs Hps Hb HC.
  rewrite epoch_as_batches;
    [|exact Hb | destruct Hbs as (? & ? & ? & ?); congruence].
  apply run_batches_ok with (n := Z.to_nat b); try assumption; [lia|].
  apply contiguous_batches_shape with (N := N). exact Hbs.
Qed.

Lemma ex_batch_shape : batch_shape ex_data ex_labels 5 2 2.
Proof. unfold batch_shape. simpl. auto. Qed.

Lemma ex_params_shape : params_shape ex_params 2 3 2.
Proof. unfold params_shape. simpl. repeat split. Qed.

(** ** The batch size *)

Lemma epoch_drops_remainder (train_data train_labels : ndarray2) (lr : R)
    (b : Z) (fwd : forward_t) (bwd : backward_t) :
  (0 < b)%Z -> mshape0 train_data = mshape0 train_labels ->
  let used := (mshape0 train_labels / Z.to_nat b * Z.to_nat b)%nat in
  gradient_descent_epoch train_data train_labels lr b fwd bwd =
  gradient_descent_epoch (rows_window train_data 0 used)
                         (rows_window train_labels 0 used) lr b fwd bwd.
Proof.
  intros Hb Hrows used.
  rewrite !epoch_as_batches by (try exact Hb; simpl; congruence).
  unfold contiguous_batches. simpl. unfold used.
  rewrite Nat.div_mul by lia. reflexivity.
Qed.

(** C3, counterexample — on a training set of 5 rows, a batch size of 6
    and a batch size of -2 are both accepted: the epoch returns normally
    and leaves the parameters as they were. *)
Lemma oversized_and_negative_batch_size_accepted :
  gradient_descent_epoch ex_data ex_labels 1 6 forward_prop backward_prop
      ex_params = (Ok tt, ex_params) /\
  gradient_descent_epoch ex_data ex_labels 1 (-2) forward_prop backward_prop
      ex_params = (Ok tt, ex_params).
Proof.
  split; apply epoch_no_batches; simpl; lia.
Qed.

(** C3, as the code has it — a batch size of zero makes the epoch raise
    [ZeroDivisionError] before any update; a negative batch size, or one
    larger than the number of training rows, is not rejected: the epoch
    returns normally without any update; a positive batch size, whether or
    not it divides the number of rows, is not an error on a well-shaped
    training set, and the rows after the last full batch are dropped: the
    epoch is the one of the training set cut to its first
    [floor(N / batch_size) * batch_size] rows. *)
Theorem batch_size_validation (train_data train_labels : ndarray2) (lr : R)
    (b : Z) (f : forward_t) (params : Params) (N D H C : nat)
    (Hbs : batch_shape train_data train_labels N D C)
    (Hps : params_shape params D H C) (HC : (1 <= C)%nat) :
  (forall bwd, b = 0%Z ->
     gradient_descent_epoch train_data train_labels lr b f bwd params
       = (Raise ZeroDivisionError, params)) /\
  (forall bwd, (b < 0 \/ Z.of_nat N < b)%Z ->
     gradient_descent_epoch train_data train_labels lr b f bwd params
       = (Ok tt, params)) /\
  ((0 < b)%Z ->
     (exists params',
        gradient_descent_epoch train_data train_labels lr b f backward_prop
          params = (Ok tt, params')) /\
     forall bwd,
       let used := (N / Z.to_nat b * Z.to_nat b)%nat in
       (used <= N < used + Z.to_nat b)%nat /\
       gradient_descent_epoch train_data train_labels lr b f bwd =
       gradient_descent_epoch (rows_window train_data 0 used)
                              (rows_window train_labels 0 used) lr b f bwd).
Proof.
  assert (HN : mshape0 train_labels = N) by apply Hbs.
  assert (HN' : mshape0 train_data = mshape0 train_labels)
    by (destruct Hbs as (? & ? & ? & ?); congruence).
  split; [|split].
  - intros bwd ->. reflexivity.
  - intros bwd Hb. apply epoch_no_batches. rewrite HN. exact Hb.
  - intros Hb. split.
    + destruct (epoch_ok lr f Hbs Hps Hb HC) as (p' & Hp' & _).
      exists p'. exact Hp'.
    + intros bwd used. split.
      * unfold used.
        pose proof (Nat.Div0.mul_div_le N (Z.to_nat b)).
        pose proof (Nat.mul_succ_div_gt N (Z.to_nat b)).
        nia.
      * unfold used. rewrite <- HN. apply epoch_drops_remainder; assumption.
Qed.

Lemma batch_size_validation_witness :
  batch_shape ex_data ex_labels 5 2 2 /\ params_shape ex_params 2 3 2 /\
  exists params',
    gradient_descent_epoch ex_data ex_labels 1 2 forward_prop backward_prop
      ex_params = (Ok tt, params').
Proof.
  split; [exact ex_batch_shape|]. split; [exact ex_params_shape|].
  refine (proj1 (proj2 (proj2
    (batch_size_validation 1 2 forward_prop
       ex_batch_shape ex_params_shape (le_S 1 1 (le_n 1)))) _)).
  reflexivity.
Defined.

(** C6 — for a training set of [N] rows and a positive batch size, one
    epoch is one gradient step per batch, in order, over exactly
    [floor(N / batch_size)] batches; batch [k] has [batch_size] rows and
    its row [i] is row [k * batch_size + i] of the training set, so the
    batches are contiguous, do not overlap and keep the order of the rows,
    and the rows after the last full batch belong to no batch.  With
    [batch_size = N] the epoch is exactly one gradient step, on the whole
    training set; with [batch_size > N] it performs no step at all. *)
Theorem epoch_processes_contiguous_batches
    (train_data train_labels : ndarray2) (lr : R) (b : Z)
    (fwd : forward_t) (bwd : backward_t)
    (Hb : (0 < b)%Z) (Hrows : mshape0 train_data = mshape0 train_labels) :
  let N := mshape0 train_labels in
  let bs := Z.to_nat b in
  let batches := contiguous_batches train_data train_labels bs in
  gradient_descent_epoch train_data train_labels lr b fwd bwd =
    run_batches (gradient_step lr b fwd bwd) batches /\
  length batches = (N / bs)%nat /\
  (N / bs * bs <= N < N / bs * bs + bs)%nat /\
  (forall k, (k < N / bs)%nat ->
     exists batch_X batch_y,
       nth_error batches k = Some (batch_X, batch_y) /\
       mshape0 batch_X = bs /\ mshape0 batch_y = bs /\
       mshape1 batch_X = mshape1 train_data /\
       mshape1 batch_y = mshape1 train_labels /\
       forall i j, (i < bs)%nat ->
         (k * bs + i < N / bs * bs)%nat /\
         mat batch_X i j = mat train_data (k * bs + i) j /\
         mat batch_y i j = mat train_labels (k * bs + i) j) /\
  (forall k i k' i', (i < bs)%nat -> (i' < bs)%nat ->
     (k * bs + i = k' * bs + i')%nat -> k = k' /\ i = i') /\
  (b = Z.of_nat N ->
     gradient_descent_epoch train_data train_labels lr b fwd bwd =
     (gradient_step lr b fwd bwd train_data train_labels ;;; sret tt)) /\
  ((Z.of_nat N < b)%Z ->
     forall params,
       gradient_descent_epoch train_data train_labels lr b fwd bwd params =
       (Ok tt, params)).
Proof.
  intros N bs batches.
  assert (Hbs : (0 < bs)%nat) by (unfold bs; lia).
  split; [apply epoch_as_batches; assumption|].
  split; [unfold batches, contiguous_batches; rewrite length_map, length_seq;
          reflexivity|].
  split.
  { pose proof (Nat.Div0.mul_div_le N bs).
    pose proof (Nat.mul_succ_div_gt N bs). nia. }
  split.
  { intros k Hk. do 2 eexists. split.
    - unfold batches, contiguous_batches.
      rewrite nth_error_map, nth_error_seq.
      unfold N in Hk.
      destruct (Nat.ltb_spec k (mshape0 train_labels / bs)) as [_|Hge]; [|lia].
      simpl. reflexivity.
    - simpl. repeat split. nia. }
  split.
  { intros k i k' i' Hi Hi' Heq.
    assert (k = k') by nia. subst k'. split; [reflexivity | nia]. }
  split.
  { intros HbN.
    assert (HbsN : bs = N) by (unfold bs; lia).
    rewrite epoch_as_batches by assumption.
    fold bs. unfold contiguous_batches. fold N. rewrite HbsN.
    rewrite Nat.div_same by lia. simpl.
    unfold N at 2. rewrite rows_window_all.
    unfold N. rewrite <- Hrows, rows_window_all. reflexivity. }
  intros HNb params. apply epoch_no_batches. right. exact HNb.
Qed.

Lemma epoch_processes_contiguous_batches_witness :
  (0 < 2)%Z /\ mshape0 ex_data = mshape0 ex_labels /\
  gradient_descent_epoch ex_data ex_labels 1 2 forward_prop backward_prop =
    run_batches (gradient_step 1 2 forward_prop backward_prop)
                (contiguous_batches ex_data ex_labels 2) /\
  length (contiguous_batches ex_data ex_labels 2) = 2%nat.
Proof.
  split; [reflexivity|]. split; [reflexivity|].
  pose proof (epoch_processes_contiguous_batches ex_data ex_labels 1
                forward_prop backward_prop (b := 2) eq_refl eq_refl) as H.
  simpl in H. split; [exact (proj1 H) | exact (proj1 (proj2 H))].
Defined.

(** C10, counterexample — given a forward pass that always raises, a plain
    backward pass that invoked its argument would raise, but the source's
    [backward_prop] returns a gradient: it does not invoke the function it
    is given. *)
Lemma plain_backward_prop_ignores_argument :
  backward_prop_invoking_argument ex_data ex_labels ex_params raising_forward
    = Raise ValueError /\
  exists grad,
    backward_prop ex_data ex_labels ex_params raising_forward = Ok grad.
Proof.
  split; [reflexivity|].
  destruct (backward_prop_ok raising_forward ex_batch_shape ex_params_shape)
    as (grad & Hg & _); [lia | lia |].
  exists grad. exact Hg.
Qed.

(** ** Scaling of the bias and weight gradients *)

(** C7 — on a well-shaped batch of [N] rows, with [d1 = a2 - labels] and
    [d2 = (d1 . W2^T) * a1 * (1 - a1)], the gradient's bias entries are the
    column sums of [d1] and [d2], not divided by [N], and its weight
    entries are [a1^T . d1] and [data^T . d2] divided by [N]; the gradient
    step then subtracts [lr * dW] from each weight and
    [lr * (db / batch_size)] from each bias, so that when the batch has
    [batch_size] rows weights and biases are both averaged over the batch
    exactly once. *)
Theorem bias_and_weight_gradient_scaling (batch_X batch_y : ndarray2)
    (params : Params) (lr : R) (b : Z) (f : forward_t) (N D H C : nat)
    (Hbs : batch_shape batch_X batch_y N D C)
    (Hps : params_shape params D H C)
    (HN : (1 <= N)%nat) (HC : (1 <= C)%nat) :
  exists a1 a2 loss grad params',
    forward_prop batch_X batch_y params = Ok (a1, a2, loss) /\
    backward_prop batch_X batch_y params f = Ok grad /\
    gradient_step lr b f backward_prop batch_X batch_y params = (Ok tt, params') /\
    let d1 := fun i j => mat a2 i j - mat batch_y i j in
    let d2 := fun i h =>
      sum_upto (fun c => d1 i c * mat (W2 params) h c) C
      * (mat a1 i h * (1 - mat a1 i h)) in
    (forall j, (j < C)%nat ->
       vec (b2 grad) j = sum_upto (fun i => d1 i j) N) /\
    (forall h, (h < H)%nat ->
       vec (b1 grad) h = sum_upto (fun i => d2 i h) N) /\
    (forall h j, (h < H)%nat -> (j < C)%nat ->
       mat (W2 grad) h j = sum_upto (fun i => mat a1 i h * d1 i j) N / INR N) /\
    (forall d h, (d < D)%nat -> (h < H)%nat ->
       mat (W1 grad) d h = sum_upto (fun i => mat batch_X i d * d2 i h) N / INR N) /\
    params_shape grad D H C /\ params_shape params' D H C /\
    (forall d h, (d < D)%nat -> (h < H)%nat ->
       mat (W1 params') d h = mat (W1 params) d h - lr * mat (W1 grad) d h) /\
    (forall h j, (h < H)%nat -> (j < C)%nat ->
       mat (W2 params') h j = mat (W2 params) h j - lr * mat (W2 grad) h j) /\
    (forall h, (h < H)%nat ->
       vec (b1 params') h = vec (b1 params) h - lr * (vec (b1 grad) h / IZR b)) /\
    (forall j, (j < C)%nat ->
       vec (b2 params') j = vec (b2 params) j - lr * (vec (b2 grad) j / IZR b)) /\
    (b = Z.of_nat N ->
       (forall h j, (h < H)%nat -> (j < C)%nat ->
          mat (W2 params') h j =
          mat (W2 params) h j
          - lr * (sum_upto (fun i => mat a1 i h * d1 i j) N / INR N)) /\
       (forall j, (j < C)%nat ->
          vec (b2 params') j =
          vec (b2 params) j - lr * (sum_upto (fun i => d1 i j) N / INR N)) /\
       (forall d h, (d < D)%nat -> (h < H)%nat ->
          mat (W1 params') d h =
          mat (W1 params) d h
          - lr * (sum_upto (fun i => mat batch_X i d * d2 i h) N / INR N)) /\
       (forall h, (h < H)%nat ->
          vec (b1 params') h =
          vec (b1 params) h - lr * (sum_upto (fun i => d2 i h) N / INR N))).
Proof.
  destruct (forward_prop_ok Hbs Hps HN HC)
    as (a1 & a2 & loss & Hf & Ha10 & Ha11 & Ha20 & Ha21).
  destruct (backward_prop_ok f Hbs Hps HN HC) as (grad & Hg & Hgs).
  destruct (gradient_step_ok lr b f Hbs Hps HN HC) as (params' & Hstep & Hps').
  exists a1, a2, loss, grad, params'.
  split; [exact Hf|]. split; [exact Hg|]. split; [exact Hstep|].
  intros d1 d2.
  destruct Hbs as (Hd0 & Hd1 & Hl0 & Hl1).
  pose proof Hps as (Hw0 & Hw1 & Hb1 & Hv0 & Hv1 & Hb2).
  pose proof Hgs as (Gw0 & Gw1 & Gb1 & Gv0 & Gv1 & Gb2).
  unfold gradient_step, sbind, get, lift in Hstep. rewrite Hg in Hstep.
  unfold isub_W1 in Hstep. rewrite inplace2_ok in Hstep; simpl;
    [|congruence | rewrite Gw1, Hw1; apply broadcast_dim_refl].
  unfold isub_W2 in Hstep. rewrite inplace2_ok in Hstep; simpl;
    [|congruence | rewrite Gv1, Hv1; apply broadcast_dim_refl].
  unfold isub_b1 in Hstep. rewrite inplace1_ok in Hstep; simpl; [|congruence].
  unfold isub_b2 in Hstep. rewrite inplace1_ok in Hstep; simpl; [|congruence].
  simpl in Hstep. injection Hstep as Hstep.
  unfold backward_prop in Hg. rewrite Hf in Hg. simpl in Hg.
  rewrite ew2_ok in Hg by congruence. simpl in Hg.
  rewrite dot_ok in Hg by (simpl; congruence). simpl in Hg.
  rewrite dot_ok in Hg by (simpl; congruence). simpl in Hg.
  rewrite ew2_ok in Hg by reflexivity. simpl in Hg.
  rewrite ew2_ok in Hg by (simpl; congruence). simpl in Hg.
  rewrite dot_ok in Hg by (simpl; congruence). simpl in Hg.
  rewrite ?Hd0, ?Hd1, ?Hl0, ?Hl1, ?Ha10, ?Ha11, ?Ha20, ?Ha21, ?Hv0, ?Hv1 in Hg.
  injection Hg as Hg.
  assert (Eb2 : forall j, (j < C)%nat ->
            vec (b2 grad) j = sum_upto (fun i => d1 i j) N).
  { intros j Hj. rewrite <- Hg. simpl.
    apply sum_upto_ext. intros i Hi. unfold d1.
    rewrite !bidx_lt by assumption. reflexivity. }
  assert (Ed2 : forall i h, (i < N)%nat -> (h < H)%nat ->
            sum_upto (fun k =>
              (mat a2 (bidx N (bidx N i)) (bidx C k)
               - mat batch_y (bidx N (bidx N i)) (bidx C k))
              * mat (W2 params) (bidx H h) k) C
            * (mat a1 (bidx N (bidx N i)) (bidx H (bidx H h))
               * (1 - mat a1 (bidx N (bidx N i)) (bidx H (bidx H h))))
            = d2 i h).
  { intros i h Hi Hh. unfold d2, d1.
    rewrite !(bidx_lt Hi), !(bidx_lt Hh).
    f_equal. apply sum_upto_ext. intros k Hk.
    rewrite (bidx_lt Hk). reflexivity. }
  assert (Eb1 : forall h, (h < H)%nat ->
            vec (b1 grad) h = sum_upto (fun i => d2 i h) N).
  { intros h Hh. rewrite <- Hg. simpl.
    apply sum_upto_ext. intros i Hi. apply Ed2; assumption. }
  assert (EW2 : forall h j, (h < H)%nat -> (j < C)%nat ->
            mat (W2 grad) h j
            = sum_upto (fun i => mat a1 i h * d1 i j) N / INR N).
  { intros h j Hh Hj. rewrite <- Hg. simpl.
    f_equal. apply sum_upto_ext. intros i Hi. unfold d1.
    rewrite !bidx_lt by assumption. reflexivity. }
  assert (EW1 : forall d h, (d < D)%nat -> (h < H)%nat ->
            mat (W1 grad) d h
            = sum_upto (fun i => mat batch_X i d * d2 i h) N / INR N).
  { intros d h Hd Hh. rewrite <- Hg. simpl.
    f_equal. apply sum_upto_ext. intros i Hi.
    rewrite Ed2 by assumption. reflexivity. }
  assert (UW1 : forall d h, (d < D)%nat -> (h < H)%nat ->
            mat (W1 params') d h = mat (W1 params) d h - lr * mat (W1 grad) d h).
  { intros d h Hd Hh. rewrite <- Hstep. simpl.
    rewrite !bidx_lt by congruence. reflexivity. }
  assert (UW2 : forall h j, (h < H)%nat -> (j < C)%nat ->
            mat (W2 params') h j = mat (W2 params) h j - lr * mat (W2 grad) h j).
  { intros h j Hh Hj. rewrite <- Hstep. simpl.
    rewrite !bidx_lt by congruence. reflexivity. }
  assert (Ub1 : forall h, (h < H)%nat ->
            vec (b1 params') h
            = vec (b1 params) h - lr * (vec (b1 grad) h / IZR b)).
  { intros h Hh. rewrite <- Hstep. simpl.
    rewrite !bidx_lt by congruence. reflexivity. }
  assert (Ub2 : forall j, (j < C)%nat ->
            vec (b2 params') j
            = vec (b2 params) j - lr * (vec (b2 grad) j / IZR b)).
  { intros j Hj. rewrite <- Hstep. simpl.
    rewrite !bidx_lt by congruence. reflexivity. }
  repeat (split; [assumption|]).
  intros HbN. subst b. rewrite <- INR_IZR_INZ in *.
  repeat split; intros.
  - rewrite UW2, EW2 by assumption. reflexivity.
  - rewrite Ub2, Eb2 by assumption. reflexivity.
  - rewrite UW1, EW1 by assumption. reflexivity.
  - rewrite Ub1, Eb1 by assumption. reflexivity.
Qed.

Lemma bias_and_weight_gradient_scaling_witness :
  batch_shape ex_data ex_labels 5 2 2 /\ params_shape ex_params 2 3 2 /\
  exists grad params',
    backward_prop ex_data ex_labels ex_params forward_prop = Ok grad /\
    gradient_step 1 5 forward_prop backward_prop ex_data ex_labels ex_params
      = (Ok tt, params') /\
    vec (b2 params') 0 = vec (b2 ex_params) 0 - 1 * (vec (b2 grad) 0 / 5).
Proof.
  split; [exact ex_batch_shape|]. split; [exact ex_params_shape|].
  destruct (bias_and_weight_gradient_scaling 1 5 forward_prop
              ex_batch_shape ex_params_shape
              (le_S _ _ (le_S _ _ (le_S _ _ (le_S _ _ (le_n 1)))))
              (le_S _ _ (le_n 1)))
    as (a1 & a2 & loss & grad & params' & _ & Hg & Hstep & _ & _ & _ & _ & _ & _
        & _ & _ & _ & Hb2 & _).
  exists grad, params'. split; [exact Hg|]. split; [exact Hstep|].
  apply Hb2. lia.
Defined.

(** ** The training loop *)

Lemma keeps_shape_sret (A : Type) (a : A) : keeps_shape (sret a).
Proof. intros p D H C Hp. exact Hp. Qed.

Lemma keeps_shape_lift (A : Type) (r : result A) : keeps_shape (lift r).
Proof. intros p D H C Hp. exact Hp. Qed.

Lemma keeps_shape_get : keeps_shape get.
Proof. intros p D H C Hp. exact Hp. Qed.

Lemma keeps_shape_sbind (A B : Type) (m : M A) (k : A -> M B) :
  keeps_shape m -> (forall a, keeps_shape (k a)) -> keeps_shape (sbind m k).
Proof.
  intros Hm Hk p D H C Hp. unfold sbind. specialize (Hm p D H C Hp).
  destruct (m p) as [[a|e] p']; simpl in *.
  - apply Hk. exact Hm.
  - exact Hm.
Qed.

Lemma keeps_shape_for_each (l : list nat) (body : nat -> M unit) :
  (forall i, keeps_shape (body i)) -> keeps_shape (for_each l body).
Proof.
  intros Hb. induction l as [|i l IH]; simpl.
  - apply keeps_shape_sret.
  - apply keeps_shape_sbind; auto.
Qed.

Lemma inplace2_shape (f : R -> R -> R) (x y w : ndarray2) :
  inplace2 f x y = Ok w -> mshape0 w = mshape0 x /\ mshape1 w = mshape1 x.
Proof.
  unfold inplace2. intros H. do 2 bind_step.
  destruct ((a =? mshape0 x) && (a0 =? mshape1 x))%nat; [|discriminate H].
  injection H as <-. simpl. auto.
Qed.

Lemma inplace1_shape (f : R -> R -> R) (x y w : ndarray1) :
  inplace1 f x y = Ok w -> vshape0 w = vshape0 x.
Proof.
  unfold inplace1. intros H. bind_step.
  destruct (a =? vshape0 x)%nat; [|discriminate H].
  injection H as <-. reflexivity.
Qed.

Lemma keeps_shape_isub_W1 (y : ndarray2) : keeps_shape (isub_W1 y).
Proof.
  intros p D H C Hp. unfold isub_W1.
  destruct (inplace2 _ _ _) as [w|e] eqn:E; simpl; [|exact Hp].
  apply inplace2_shape in E as [E0 E1].
  unfold params_shape in *. simpl. rewrite E0, E1. exact Hp.
Qed.

Lemma keeps_shape_isub_W2 (y : ndarray2) : keeps_shape (isub_W2 y).
Proof.
  intros p D H C Hp. unfold isub_W2.
  destruct (inplace2 _ _ _) as [w|e] eqn:E; simpl; [|exact Hp].
  apply inplace2_shape in E as [E0 E1].
  unfold params_shape in *. simpl. rewrite E0, E1. exact Hp.
Qed.

Lemma keeps_shape_isub_b1 (y : ndarray1) : keeps_shape (isub_b1 y).
Proof.
  intros p D H C Hp. unfold isub_b1.
  destruct (inplace1 _ _ _) as [w|e] eqn:E; simpl; [|exact Hp].
  apply inplace1_shape in E.
  unfold params_shape in *. simpl. rewrite E. exact Hp.
Qed.

Lemma keeps_shape_isub_b2 (y : ndarray1) : keeps_shape (isub_b2 y).
Proof.
  intros p D H C Hp. unfold isub_b2.
  destruct (inplace1 _ _ _) as [w|e] eqn:E; simpl; [|exact Hp].
  apply inplace1_shape in E.
  unfold params_shape in *. simpl. rewrite E. exact Hp.
Qed.

(** Whatever the gradient function, an epoch keeps the shapes of the
    parameters: every update is in place. *)
Lemma keeps_shape_epoch (train_data train_labels : ndarray2) (lr : R) (b : Z)
    (fwd : forward_t) (bwd : backward_t) :
  keeps_shape (gradient_descent_epoch train_data train_labels lr b fwd bwd).
Proof.
  unfold gradient_descent_epoch.
  apply keeps_shape_sbind; [apply keeps_shape_lift | intros batches].
  apply keeps_shape_for_each. intros i. unfold gradient_step.
  apply keeps_shape_sbind; [apply keeps_shape_get | intros params].
  apply keeps_shape_sbind; [apply keeps_shape_lift | intros grad].
  apply keeps_shape_sbind; [apply keeps_shape_isub_W1 | intros _].
  apply keeps_shape_sbind; [apply keeps_shape_isub_W2 | intros _].
  apply keeps_shape_sbind; [apply keeps_shape_isub_b1 | intros _].
  apply keeps_shape_isub_b2.
Qed.

Lemma train_epochs_inv (epochs : list nat)
    (train_data train_labels dev_data dev_labels : ndarray2)
    (fwd : forward_t) (bwd : backward_t) (lr : R) (b : Z) :
  forall p ct cd at_ ad p' ct' cd' at' ad',
  train_epochs epochs train_data train_labels dev_data dev_labels fwd bwd lr b
    (p, ct, cd, at_, ad) = Ok (p', ct', cd', at', ad') ->
  length ct' = (length ct + length epochs)%nat /\
  length cd' = (length cd + length epochs)%nat /\
  length at' = (length at_ + length epochs)%nat /\
  length ad' = (length ad + length epochs)%nat /\
  (forall D H C, params_shape p D H C -> params_shape p' D H C) /\
  (epochs = [] -> p' = p /\ ct' = ct /\ cd' = cd /\ at' = at_ /\ ad' = ad).
Proof.
  induction epochs as [|e rest IH]; intros p ct cd at_ ad p' ct' cd' at' ad' Hrun.
  - simpl in Hrun. injection Hrun as <- <- <- <- <-.
    simpl. rewrite !Nat.add_0_r. auto 10.
  - simpl in Hrun.
    pose proof (@keeps_shape_epoch train_data train_labels lr b fwd bwd p) as Hk.
    destruct (gradient_descent_epoch train_data train_labels lr b fwd bwd p)
      as [[[]|ex] p1]; [|discriminate Hrun].
    simpl in Hk.
    bind_step. destruct a as [[h1 out1] cost1]. simpl in Hrun.
    bind_step.
    bind_step. destruct a0 as [[h2 out2] cost2]. simpl in Hrun.
    bind_step.
    apply IH in Hrun as (L1 & L2 & L3 & L4 & Hs & _).
    rewrite length_app in L1, L2, L3, L4. simpl in *.
    do 4 (split; [lia|]).
    split; [|discriminate].
    intros D H C Hp. apply Hs, Hk, Hp.
Qed.

Lemma get_initial_params_inv (normal : nat -> R) (i h o : Z) (rng rng' : nat)
    (p : Params) :
  get_initial_params normal i h o rng = (Ok p, rng') ->
  (0 <= i)%Z /\ (0 <= h)%Z /\ (0 <= o)%Z /\
  params_shape p (Z.to_nat i) (Z.to_nat h) (Z.to_nat o).
Proof.
  unfold get_initial_params, sbind, random_normal, lift, zeros, sret.
  destruct (Z.ltb_spec i 0); simpl; [discriminate|].
  destruct (Z.ltb_spec h 0); simpl; [discriminate|].
  destruct (Z.ltb_spec o 0); simpl; [discriminate|].
  intros [= <- _]. unfold params_shape. simpl. repeat split; assumption.
Qed.

Lemma get_initial_params_ok (normal : nat -> R) (i h o : Z) (rng : nat) :
  (0 <= i)%Z -> (0 <= h)%Z -> (0 <= o)%Z ->
  exists p rng', get_initial_params normal i h o rng = (Ok p, rng').
Proof.
  intros Hi Hh Ho.
  unfold get_initial_params, sbind, random_normal, lift, zeros, sret.
  destruct (Z.ltb_spec i 0); [lia|].
  destruct (Z.ltb_spec h 0); [lia|].
  destruct (Z.ltb_spec o 0); [lia|].
  simpl. eauto.
Qed.

Lemma compute_accuracy_ok (output labels : ndarray2) :
  mshape0 output = mshape0 labels ->
  (1 <= mshape1 output)%nat -> (1 <= mshape1 labels)%nat ->
  exists acc, compute_accuracy output labels = Ok acc.
Proof.
  intros H0 Ho Hl. unfold compute_accuracy, argmax_axis1.
  destruct (Nat.eqb_spec (mshape1 output) 0); [lia|].
  destruct (Nat.eqb_spec (mshape1 labels) 0); [lia|].
  simpl. rewrite H0, broadcast_dim_refl. simpl. eauto.
Qed.

Lemma train_epochs_ok (epochs : list nat)
    (train_data train_labels dev_data dev_labels : ndarray2)
    (lr : R) (b : Z) (N M D H C : nat) :
  batch_shape train_data train_labels N D C ->
  batch_shape dev_data dev_labels M D C ->
  (1 <= N)%nat -> (1 <= M)%nat -> (1 <= C)%nat -> (0 < b)%Z ->
  forall p ct cd at_ ad, params_shape p D H C ->
  exists r,
    train_epochs epochs train_data train_labels dev_data dev_labels
      forward_prop backward_prop lr b (p, ct, cd, at_, ad) = Ok r.
Proof.
  intros Ht Hd HN HM HC Hb.
  induction epochs as [|e rest IH]; intros p ct cd at_ ad Hp.
  - simpl. eauto.
  - simpl.
    destruct (epoch_ok lr forward_prop Ht Hp Hb HC) as (p1 & Hep & Hp1).
    rewrite Hep.
    destruct (forward_prop_ok Ht Hp1 HN HC)
      as (h1 & out1 & cost1 & Hf1 & _ & _ & Ho10 & Ho11).
    rewrite Hf1. simpl.
    destruct (@compute_accuracy_ok out1 train_labels) as (acc1 & Hacc1);
      [destruct Ht as (? & ? & ? & ?); congruence | lia
      | destruct Ht as (? & ? & ? & ?); lia |].
    rewrite Hacc1. simpl.
    destruct (forward_prop_ok Hd Hp1 HM HC)
      as (h2 & out2 & cost2 & Hf2 & _ & _ & Ho20 & Ho21).
    rewrite Hf2. simpl.
    destruct (@compute_accuracy_ok out2 dev_labels) as (acc2 & Hacc2);
      [destruct Hd as (? & ? & ? & ?); congruence | lia
      | destruct Hd as (? & ? & ? & ?); lia |].
    rewrite Hacc2. simpl.
    apply IH. exact Hp1.
Qed.

(** On well-shaped training and held-out sets with 10 label columns, the
    training loop with the module's own initializer, forward pass and
    plain backward pass returns normally. *)
Lemma nn_train_ok (normal : nat -> R)
    (train_data train_labels dev_data dev_labels : ndarray2)
    (num_hidden : Z) (lr : R) (num_epochs b : Z) (rng N M D : nat) :
  batch_shape train_data train_labels N D 10 ->
  batch_shape dev_data dev_labels M D 10 ->
  (1 <= N)%nat -> (1 <= M)%nat -> (0 <= num_hidden)%Z -> (0 < b)%Z ->
  exists params ct cd at_ ad rng',
    nn_train train_data train_labels dev_data dev_labels
      (get_initial_params normal) forward_prop backward_prop
      num_hidden lr num_epochs b rng
    = (Ok (params, ct, cd, at_, ad), rng').
Proof.
  intros Ht Hd HN HM HH Hb. unfold nn_train, sbind.
  destruct (@get_initial_params_ok normal (Z.of_nat (mshape1 train_data))
              num_hidden 10 rng) as (p0 & rng' & Hinit); [lia | lia | lia |].
  rewrite Hinit.
  apply get_initial_params_inv in Hinit as (_ & _ & _ & Hp0).
  rewrite Nat2Z.id in Hp0.
  replace (mshape1 train_data) with D in Hp0 by (symmetry; apply Ht).
  change (Z.to_nat 10) with 10%nat in Hp0.
  destruct (train_epochs_ok (seq 0 (Z.to_nat num_epochs)) lr Ht Hd HN HM
              (le_S _ _ (le_S _ _ (le_S _ _ (le_S _ _ (le_S _ _ (le_S _ _
                 (le_S _ _ (le_S _ _ (le_S _ _ (le_n 1))))))))))
              Hb [] [] [] [] Hp0)
    as ([[[[p' ct] cd] at_] ad] & Hrun).
  unfold lift. rewrite Hrun. eauto 10.
Qed.

(** C8 — with [num_epochs = 0] the training loop returns exactly the
    parameters its initializer produced, untouched by any optimizer step,
    and four empty metric sequences; whenever the loop returns, each of
    the four metric sequences has one entry per epoch, so for a positive
    [num_epochs] its length is exactly [num_epochs]. *)
Theorem nn_train_metric_sequences
    (train_data train_labels dev_data dev_labels : ndarray2)
    (init : Z -> Z -> Z -> ST nat Params) (fwd : forward_t) (bwd : backward_t)
    (num_hidden : Z) (lr : R) (num_epochs b : Z) (rng rng' : nat)
    (params : Params) (ct cd at_ ad : list R)
    (Hrun : nn_train train_data train_labels dev_data dev_labels init fwd bwd
              num_hidden lr num_epochs b rng
            = (Ok (params, ct, cd, at_, ad), rng')) :
  nn_train train_data train_labels dev_data dev_labels init fwd bwd
      num_hidden lr 0 b rng
    = (p0 <~ init (Z.of_nat (mshape1 train_data)) num_hidden 10%Z ;;
       sret (p0, [], [], [], [])) rng /\
  (num_epochs = 0%Z ->
     init (Z.of_nat (mshape1 train_data)) num_hidden 10%Z rng = (Ok params, rng') /\
     ct = [] /\ cd = [] /\ at_ = [] /\ ad = []) /\
  (length ct = Z.to_nat num_epochs /\ length cd = Z.to_nat num_epochs /\
   length at_ = Z.to_nat num_epochs /\ length ad = Z.to_nat num_epochs) /\
  ((0 < num_epochs)%Z ->
     Z.of_nat (length ct) = num_epochs /\ Z.of_nat (length cd) = num_epochs /\
     Z.of_nat (length at_) = num_epochs /\ Z.of_nat (length ad) = num_epochs).
Proof.
  split; [reflexivity|].
  unfold nn_train, sbind, lift in Hrun.
  destruct (init (Z.of_nat (mshape1 train_data)) num_hidden 10%Z rng)
    as [[p0|e] rng0]; [|discriminate Hrun].
  injection Hrun as Hrun <-.
  apply train_epochs_inv in Hrun as (L1 & L2 & L3 & L4 & _ & Hnil).
  rewrite length_seq in L1, L2, L3, L4. simpl in L1, L2, L3, L4.
  split; [|split].
  - intros ->. simpl in Hnil.
    destruct (Hnil eq_refl) as (-> & -> & -> & -> & ->). auto.
  - auto.
  - intros Hpos. lia.
Qed.

Lemma nn_train_metric_sequences_witness :
  exists params ct cd at_ ad rng',
    nn_train ex10_data ex10_labels ex10_dev_data ex10_dev_labels
      (get_initial_params ex_normal) forward_prop backward_prop 3 1 2 1 0%nat
    = (Ok (params, ct, cd, at_, ad), rng') /\
    length ct = 2%nat /\ length cd = 2%nat /\
    length at_ = 2%nat /\ length ad = 2%nat.
Proof.
  destruct (@nn_train_ok ex_normal ex10_data ex10_labels ex10_dev_data
              ex10_dev_labels 3 1 2 1 0 2 1 2)
    as (params & ct & cd & at_ & ad & rng' & Hrun).
  - unfold batch_shape. simpl. auto.
  - unfold batch_shape. simpl. auto.
  - lia.
  - lia.
  - lia.
  - lia.
  - exists params, ct, cd, at_, ad, rng'. split; [exact Hrun|].
    pose proof Hrun as Hlen. apply nn_train_metric_sequences in Hlen.
    exact (proj1 (proj2 (proj2 Hlen))).
Defined.

(** C9, counterexample — trained on labels with 2 classes and a hidden
    width of 3, the loop initializes [W2] with 10 columns and [b2] with 10
    entries. *)
Lemma nn_train_two_classes_gets_ten_outputs :
  mshape1 ex_labels = 2%nat /\
  exists params ct cd at_ ad rng',
    nn_train ex_data ex_labels ex_data ex_labels
      (get_initial_params ex_normal) forward_prop backward_prop 3 1 0 2 0%nat
    = (Ok (params, ct, cd, at_, ad), rng') /\
    mshape1 (W2 params) = 10%nat /\ vshape0 (b2 params) = 10%nat.
Proof.
  split; [reflexivity|].
  do 6 eexists. split; [reflexivity|]. split; reflexivity.
Qed.

(** C9, as the code has it — the training loop always asks its initializer
    for 10 output classes: with the module's [get_initial_params] the
    parameters it returns have [W1] of shape D x H, [b1] of length H, [W2]
    of shape H x 10 and [b2] of length 10, whatever the number of columns
    of the label matrix, which they match only when that number is 10. *)
Theorem nn_train_initializes_ten_classes (normal : nat -> R)
    (train_data train_labels dev_data dev_labels : ndarray2)
    (fwd : forward_t) (bwd : backward_t)
    (num_hidden : Z) (lr : R) (num_epochs b : Z) (rng rng' : nat)
    (params : Params) (ct cd at_ ad : list R)
    (Hrun : nn_train train_data train_labels dev_data dev_labels
              (get_initial_params normal) fwd bwd
              num_hidden lr num_epochs b rng
            = (Ok (params, ct, cd, at_, ad), rng')) :
  params_shape params (mshape1 train_data) (Z.to_nat num_hidden) 10 /\
  (mshape1 (W2 params) = mshape1 train_labels <-> mshape1 train_labels = 10%nat) /\
  (vshape0 (b2 params) = mshape1 train_labels <-> mshape1 train_labels = 10%nat).
Proof.
  unfold nn_train, sbind, lift in Hrun.
  destruct (get_initial_params normal (Z.of_nat (mshape1 train_data))
              num_hidden 10 rng) as [[p0|e] rng0] eqn:Hinit;
    [|discriminate Hrun].
  injection Hrun as Hrun <-.
  apply get_initial_params_inv in Hinit as (_ & _ & _ & Hp0).
  rewrite Nat2Z.id in Hp0. change (Z.to_nat 10) with 10%nat in Hp0.
  apply train_epochs_inv in Hrun as (_ & _ & _ & _ & Hshape & _).
  specialize (Hshape _ _ _ Hp0).
  split; [exact Hshape|].
  destruct Hshape as (_ & _ & _ & _ & Hw & Hv).
  rewrite Hw, Hv. split; split; congruence.
Qed.

Lemma nn_train_initializes_ten_classes_witness :
  exists params ct cd at_ ad rng',
    nn_train ex10_data ex10_labels ex10_dev_data ex10_dev_labels
      (get_initial_params ex_normal) forward_prop backward_prop 3 1 2 1 0%nat
    = (Ok (params, ct, cd, at_, ad), rng') /\
    params_shape params 2 3 10.
Proof.
  destruct (@nn_train_ok ex_normal ex10_data ex10_labels ex10_dev_data
              ex10_dev_labels 3 1 2 1 0 2 1 2)
    as (params & ct & cd & at_ & ad & rng' & Hrun).
  - unfold batch_shape. simpl. auto.
  - unfold batch_shape. simpl. auto.
  - lia.
  - lia.
  - lia.
  - lia.
  - exists params, ct, cd, at_, ad, rng'. split; [exact Hrun|].
    pose proof Hrun as Hshape. apply nn_train_initializes_ten_classes in Hshape.
    exact (proj1 Hshape).
Defined.

(** * Further properties of the code *)

(** ** [sigmoid], lines 20-43 *)

Lemma sigmoid_entry_closed (v : R) : sigmoid_entry v = 1 / (1 + exp (- v)).
Proof.
  destruct (Rlt_dec v 0) as [Hv|Hv].
  - rewrite sigmoid_entry_neg by exact Hv.
    rewrite exp_Ropp. pose proof (exp_pos v). field. lra.
  - apply sigmoid_entry_nonneg. lra.
Qed.

(** X1 — the two branches of [sigmoid] compute one and the same function:
    every output entry is [1 / (1 + exp(-x))], on whichever side of zero
    the input entry lies, and the output has the shape of the input. *)
Theorem sigmoid_closed_form (x : ndarray2) (i j : nat) :
  mat (sigmoid x) i j = 1 / (1 + exp (- mat x i j)) /\
  mshape0 (sigmoid x) = mshape0 x /\ mshape1 (sigmoid x) = mshape1 x.
Proof.
  split; [apply sigmoid_entry_closed | split; reflexivity].
Qed.

(** X2 — [sigmoid] of the negated input is one minus [sigmoid] of the
    input, entry by entry. *)
Theorem sigmoid_negation (x : ndarray2) (i j : nat) :
  mat (sigmoid (mmap Ropp x)) i j = 1 - mat (sigmoid x) i j.
Proof.
  simpl. rewrite !sigmoid_entry_closed. rewrite Ropp_involutive.
  rewrite exp_Ropp. pose proof (exp_pos (mat x i j)). field. lra.
Qed.

(** X31 — in binary64, [sigmoid] of a zero entry, of either sign, is
    exactly 0.5, and entries of magnitude 710 are handled without an
    infinity: [exp(710)] overflows, but [sigmoid] takes the exponential of
    -710 on both sides and returns a positive number below the smallest
    normal one at -710 and exactly 1 at 710. *)
Theorem sigmoid64_zero_and_large_entries :
  let y := sigmoid64 (fof_rows 4 [[0; -0; -710; 710]]%float) in
  exp64 710 = infinity /\
  fshape0 y = 1%nat /\ fshape1 y = 4%nat /\
  fmat y 0 0 = 0.5%float /\ fmat y 0 1 = 0.5%float /\
  (0 <? fmat y 0 2)%float = true /\ (fmat y 0 2 <? 0x1p-1022)%float = true /\
  fmat y 0 3 = 1%float.
Proof.
  repeat split; vm_compute; reflexivity.
Qed.

(** ** [softmax], lines 5-17 *)

Lemma softmax_entry (x y : ndarray2) (i j : nat) :
  softmax x = Ok y -> (i < mshape0 x)%nat -> (j < mshape1 x)%nat ->
  let m := max_from (mat x i) (mshape1 x - 1) in
  let s := sum_upto (fun k => exp (mat x i k - m)) (mshape1 x) in
  0 < s /\ mat y i j = exp (mat x i j - m) / s.
Proof.
  intros H Hi Hj m s.
  destruct (softmax_inv _ H) as (Hc & _ & _).
  rewrite (softmax_value x Hc) in H. injection H as <-. simpl.
  rewrite !(bidx_lt Hi), !(bidx_lt Hj). fold m.
  assert (Hs : sum_upto (fun k => exp (mat x i (bidx (mshape1 x) k) - m))
                 (mshape1 x) = s).
  { apply sum_upto_ext. intros k Hk. rewrite (bidx_lt Hk). reflexivity. }
  rewrite Hs. split; [|reflexivity].
  apply Rlt_le_trans with (exp (mat x i j - m)); [apply exp_pos|].
  unfold s.
  apply (sum_upto_ge_term (fun k => exp (mat x i k - m))); [|exact Hj].
  intros. left. apply exp_pos.
Qed.

Lemma max_from_shift (f : nat -> R) (c : R) (n : nat) :
  max_from (fun j => f j + c) n = max_from f n + c.
Proof.
  induction n as [|n IH]; simpl; [reflexivity|].
  rewrite IH. unfold Rmax.
  destruct (Rle_dec (max_from f n + c) (f (S n) + c));
    destruct (Rle_dec (max_from f n) (f (S n))); lra.
Qed.

(** X4 — [softmax] does not change when a constant is added to every entry
    of a row (a different constant for each row): both calls raise, or both
    return matrices of the same shape with the same entries. *)
Theorem softmax_shift_invariant (x : ndarray2) (c : nat -> R) :
  result_rel mat_eq
    (softmax (mkMat (mshape0 x) (mshape1 x) (fun i j => mat x i j + c i)))
    (softmax x).
Proof.
  destruct (Nat.eq_dec (mshape1 x) 0) as [H0|H0].
  - unfold softmax, amax_axis1. simpl. rewrite H0. reflexivity.
  - assert (Hc : (1 <= mshape1 x)%nat) by lia.
    destruct (softmax (mkMat _ _ _)) as [y'|e] eqn:E';
      [|rewrite softmax_value in E' by (simpl; lia); discriminate E'].
    destruct (softmax x) as [y|e] eqn:E;
      [|rewrite softmax_value in E by exact Hc; discriminate E].
    simpl.
    destruct (softmax_inv _ E') as (_ & R0' & R1').
    destruct (softmax_inv _ E) as (_ & R0 & R1).
    simpl in R0', R1'.
    split; [congruence|]. split; [congruence|].
    intros i j Hi Hj. rewrite R0' in Hi. rewrite R1' in Hj.
    destruct (@softmax_entry _ _ i j E' Hi Hj) as (_ & ->).
    destruct (@softmax_entry _ _ i j E Hi Hj) as (_ & ->).
    simpl. rewrite max_from_shift.
    f_equal.
    + f_equal. ring.
    + apply sum_upto_ext. intros k Hk. f_equal. ring.
Qed.

(** X6 — [softmax] fails exactly on a matrix without columns, where
    [np.max] has nothing to reduce: it raises [ValueError] there, for any
    number of rows, and returns a matrix of the shape of its input in every
    other case, also for a matrix without rows. *)
Theorem softmax_raises_iff_no_columns (x : ndarray2) :
  (mshape1 x = 0%nat -> softmax x = Raise ValueError) /\
  (mshape1 x <> 0%nat ->
     exists y, softmax x = Ok y /\
       mshape0 y = mshape0 x /\ mshape1 y = mshape1 x).
Proof.
  split.
  - intros H0. unfold softmax, amax_axis1. rewrite H0. reflexivity.
  - intros H0. eexists. split; [apply softmax_value; lia|]. simpl. auto.
Qed.

(** X30 — in binary64, rows with entries of magnitude 700 and more do not
    overflow in [softmax], although the exponentials of the entries
    themselves do: on the rows [1000, -1000] and [0, 710] the result is
    [1, 0] and [e, 1] with [e] positive and below the smallest normal
    number, and the entries of each row add up to exactly 1. *)
Theorem softmax64_large_rows :
  exp64 1000 = infinity /\ exp64 710 = infinity /\
  exists y, softmax64 ex_large64 = Ok y /\
    fshape0 y = 2%nat /\ fshape1 y = 2%nat /\
    fmat y 0 0 = 1%float /\ fmat y 0 1 = 0%float /\
    (0 <? fmat y 1 0)%float = true /\ (fmat y 1 0 <? 0x1p-1022)%float = true /\
    fmat y 1 1 = 1%float /\
    sum64 (fmat y 0) 2 = 1%float /\ sum64 (fmat y 1) 2 = 1%float.
Proof.
  split; [vm_compute; reflexivity|]. split; [vm_compute; reflexivity|].
  eexists. split; [reflexivity|].
  repeat split; vm_compute; reflexivity.
Qed.

(** X32 — in binary64, [softmax] does not keep apart two entries of a row
    that are so close that their exponentials round to the same number: the
    row [0, 1e-17], whose second entry (the binary64 number nearest to
    1e-17) is the larger one, comes out as [0.5, 0.5]. *)
Theorem softmax64_merges_close_entries :
  let x := fof_rows 2 [[0; 0x1.70ef54646d497p-57]]%float in
  (fmat x 0 0 <? fmat x 0 1)%float = true /\
  exists y, softmax64 x = Ok y /\
    fmat y 0 0 = 0.5%float /\ fmat y 0 1 = 0.5%float.
Proof.
  split; [vm_compute; reflexivity|].
  eexists. split; [reflexivity|].
  split; vm_compute; reflexivity.
Qed.

(** ** [compute_accuracy], lines 269-272 *)

Lemma count_upto_ext (f g : nat -> bool) (n : nat) :
  (forall i, (i < n)%nat -> f i = g i) -> count_upto f n = count_upto g n.
Proof.
  induction n as [|n IH]; intros H; simpl; [reflexivity|].
  rewrite IH by (intros; apply H; lia). rewrite (H n) by lia. reflexivity.
Qed.

Lemma count_upto_le (f : nat -> bool) (n : nat) : (count_upto f n <= n)%nat.
Proof.
  induction n as [|n IH]; simpl; [lia|]. destruct (f n); lia.
Qed.

Lemma count_upto_all (f : nat -> bool) (n : nat) :
  count_upto f n = n <-> forall i, (i < n)%nat -> f i = true.
Proof.
  induction n as [|n IH]; simpl.
  - split; [intros _ i Hi; lia | reflexivity].
  - pose proof (count_upto_le f n) as Hle. split.
    + intros H i Hi. destruct (f n) eqn:Hn; [|lia].
      destruct (Nat.eq_dec i n) as [->|Hne]; [exact Hn|].
      apply IH; lia.
    + intros H. rewrite (H n) by lia.
      assert (count_upto f n = n) by (apply IH; intros; apply H; lia). lia.
Qed.

Lemma count_upto_none (f : nat -> bool) (n : nat) :
  count_upto f n = 0%nat <-> forall i, (i < n)%nat -> f i = false.
Proof.
  induction n as [|n IH]; simpl.
  - split; [intros _ i Hi; lia | reflexivity].
  - split.
    + intros H i Hi. destruct (f n) eqn:Hn; [lia|].
      destruct (Nat.eq_dec i n) as [->|Hne]; [exact Hn|].
      apply IH; lia.
    + intros H. rewrite (H n) by lia.
      assert (count_upto f n = 0%nat) by (apply IH; intros; apply H; lia). lia.
Qed.

(** The rows on which prediction and label agree. *)
Lemma compute_accuracy_value (output labels : ndarray2) :
  mshape0 output = mshape0 labels ->
  (1 <= mshape1 output)%nat -> (1 <= mshape1 labels)%nat ->
  compute_accuracy output labels =
  Ok (INR (count_upto
             (fun i => (argmax_from (mat output i) (mshape1 output - 1)
                        =? argmax_from (mat labels i) (mshape1 labels - 1))%nat)
             (mshape0 labels))
      * 1 / INR (mshape0 labels)).
Proof.
  intros H0 Ho Hl. unfold compute_accuracy, argmax_axis1.
  destruct (Nat.eqb_spec (mshape1 output) 0); [lia|].
  destruct (Nat.eqb_spec (mshape1 labels) 0); [lia|].
  simpl. rewrite H0, broadcast_dim_refl. simpl.
  do 4 f_equal. apply count_upto_ext. intros i Hi.
  rewrite !(bidx_lt Hi). reflexivity.
Qed.

Lemma count_upto_filter (f : nat -> bool) (n : nat) :
  count_upto f n = length (filter f (seq 0 n)).
Proof.
  induction n as [|n IH]; [reflexivity|].
  rewrite seq_S, filter_app, length_app, <- IH. simpl.
  destruct (f n); simpl; lia.
Qed.

(** X7 — on [N >= 1] rows of predictions and labels with at least one
    column each, [compute_accuracy] returns the number of rows whose first
    largest prediction is at the position of the first largest label
    entry, divided by [N]: a value between 0 and 1, equal to 1 exactly when
    every row agrees and to 0 exactly when no row does. *)
Theorem compute_accuracy_range (output labels : ndarray2)
    (Hrows : mshape0 output = mshape0 labels)
    (HN : (1 <= mshape0 labels)%nat)
    (Ho : (1 <= mshape1 output)%nat) (Hl : (1 <= mshape1 labels)%nat) :
  let agree := fun i =>
    argmax_from (mat output i) (mshape1 output - 1)
    = argmax_from (mat labels i) (mshape1 labels - 1) in
  let agreeing_rows :=
    filter (fun i => (argmax_from (mat output i) (mshape1 output - 1)
                      =? argmax_from (mat labels i) (mshape1 labels - 1))%nat)
           (seq 0 (mshape0 labels)) in
  exists acc, compute_accuracy output labels = Ok acc /\
    acc = INR (length agreeing_rows) / INR (mshape0 labels) /\
    (forall i, In i agreeing_rows <-> (i < mshape0 labels)%nat /\ agree i) /\
    0 <= acc <= 1 /\
    (acc = 1 <-> forall i, (i < mshape0 labels)%nat -> agree i) /\
    (acc = 0 <-> forall i, (i < mshape0 labels)%nat -> ~ agree i).
Proof.
  intros agree agreeing_rows.
  eexists. split; [apply compute_accuracy_value; assumption|].
  set (f := fun i => (argmax_from (mat output i) (mshape1 output - 1)
                      =? argmax_from (mat labels i) (mshape1 labels - 1))%nat).
  set (N := mshape0 labels) in *.
  assert (HNR : 0 < INR N) by (apply lt_0_INR; lia).
  pose proof (count_upto_le f N) as Hle.
  assert (Hc : INR (count_upto f N) <= INR N) by (apply le_INR; exact Hle).
  pose proof (pos_INR (count_upto f N)) as Hpos.
  assert (Heq : INR (count_upto f N) * 1 / INR N = INR (count_upto f N) / INR N)
    by (unfold Rdiv; ring).
  rewrite Heq.
  split; [|split; [|split; [|split]]].
  - unfold agreeing_rows. fold f. rewrite <- count_upto_filter. reflexivity.
  - intros i. unfold agreeing_rows. fold f. rewrite filter_In, in_seq.
    unfold f, agree. rewrite Nat.eqb_eq. split; intros [H1 H2]; (split; [lia | exact H2]).
  - split.
    + apply Rmult_le_pos; [exact Hpos | left; apply Rinv_0_lt_compat; exact HNR].
    + apply (Rmult_le_reg_r (INR N)); [exact HNR|].
      unfold Rdiv. rewrite Rmult_assoc, Rinv_l by lra. lra.
  - split.
    + intros H1.
      assert (Hcn : INR (count_upto f N) = INR N).
      { apply (Rmult_eq_reg_r (/ INR N)).
        - fold (Rdiv (INR (count_upto f N)) (INR N)). rewrite H1.
          rewrite Rinv_r by lra. reflexivity.
        - apply Rinv_neq_0_compat. lra. }
      apply INR_eq in Hcn. intros i Hi.
      apply (proj1 (count_upto_all f N) Hcn) in Hi.
      unfold f in Hi. apply Nat.eqb_eq in Hi. exact Hi.
    + intros Hall.
      assert (Hcn : count_upto f N = N).
      { apply count_upto_all. intros i Hi. unfold f.
        apply Nat.eqb_eq. apply Hall. exact Hi. }
      rewrite Hcn. unfold Rdiv. apply Rinv_r. lra.
  - split.
    + intros H0.
      assert (Hcn : INR (count_upto f N) = 0).
      { apply (Rmult_eq_reg_r (/ INR N)).
        - fold (Rdiv (INR (count_upto f N)) (INR N)). rewrite H0. ring.
        - apply Rinv_neq_0_compat. lra. }
      change 0 with (INR 0) in Hcn. apply INR_eq in Hcn. intros i Hi.
      apply (proj1 (count_upto_none f N) Hcn) in Hi.
      unfold f in Hi. apply Nat.eqb_neq in Hi. exact Hi.
    + intros Hnone.
      assert (Hcn : count_upto f N = 0%nat).
      { apply count_upto_none. intros i Hi. unfold f.
        apply Nat.eqb_neq. apply Hnone. exact Hi. }
      rewrite Hcn. simpl. unfold Rdiv. ring.
Qed.

Lemma compute_accuracy_range_witness :
  exists acc, compute_accuracy ex_labels ex_labels = Ok acc /\ acc = 1.
Proof.
  destruct (@compute_accuracy_range ex_labels ex_labels eq_refl)
    as (acc & Hacc & _ & _ & _ & H1 & _); simpl; try lia.
  exists acc. split; [exact Hacc|]. apply H1. intros i _. reflexivity.
Defined.

(** X8 — [compute_accuracy] raises [ValueError] when the predictions or
    the labels have no column, and when their numbers of rows differ and
    neither is 1. *)
Theorem compute_accuracy_errors (output labels : ndarray2) :
  (mshape1 output = 0%nat \/ mshape1 labels = 0%nat ->
     compute_accuracy output labels = Raise ValueError) /\
  (mshape0 output <> mshape0 labels -> mshape0 output <> 1%nat ->
     mshape0 labels <> 1%nat ->
     compute_accuracy output labels = Raise ValueError).
Proof.
  unfold compute_accuracy, argmax_axis1. split.
  - intros [H|H].
    + rewrite H. reflexivity.
    + rewrite H. destruct (mshape1 output =? 0)%nat; reflexivity.
  - intros Hne Ho Hl.
    destruct (mshape1 output =? 0)%nat; [reflexivity|].
    destruct (mshape1 labels =? 0)%nat; [reflexivity|].
    simpl. unfold broadcast_dim.
    destruct (Nat.eqb_spec (mshape0 output) (mshape0 labels)); [contradiction|].
    destruct (Nat.eqb_spec (mshape0 output) 1); [contradiction|].
    destruct (Nat.eqb_spec (mshape0 labels) 1); [contradiction|].
    reflexivity.
Qed.

(** ** [one_hot_labels], lines 274-277 *)

Lemma astype_int_IZR (k : Z) : astype_int (IZR k) = k.
Proof.
  assert (HI : forall z, Int_part (IZR z) = z).
  { intros z. symmetry. apply Int_part_spec. lra. }
  unfold astype_int. destruct (Rle_dec 0 (IZR k)).
  - apply HI.
  - rewrite <- opp_IZR, HI. lia.
Qed.

(** Truncation is towards zero. *)
Lemma astype_int_trunc (v : R) (k : Z) :
  (0 <= k)%Z -> IZR k <= v < IZR k + 1 ->
  astype_int v = k /\ astype_int (- v) = (- k)%Z.
Proof.
  intros Hk Hv.
  assert (H0 : 0 <= IZR k) by (apply IZR_le; exact Hk).
  assert (HI : Int_part v = k) by (symmetry; apply Int_part_spec; lra).
  split.
  - unfold astype_int. destruct (Rle_dec 0 v); [exact HI | lra].
  - unfold astype_int. destruct (Rle_dec 0 (- v)) as [Hn|Hn].
    + assert (v = 0) by lra. subst v.
      assert (Hk0 : k = 0%Z) by (apply eq_IZR; lra).
      rewrite Ropp_0, HI, Hk0. reflexivity.
    + rewrite Ropp_involutive, HI. reflexivity.
Qed.

Lemma all_upto_true (f : nat -> bool) (n : nat) :
  all_upto f n = true <-> forall i, (i < n)%nat -> f i = true.
Proof.
  induction n as [|n IH]; simpl.
  - split; [intros _ i Hi; lia | reflexivity].
  - rewrite andb_true_iff, IH. split.
    + intros [Hall Hn] i Hi.
      destruct (Nat.eq_dec i n) as [->|Hne]; [exact Hn | apply Hall; lia].
    + intros H. split; [intros; apply H; lia | apply H; lia].
Qed.

Lemma sum_upto_indicator (c n : nat) :
  sum_upto (fun j => if (j =? c)%nat then 1 else 0) n
  = if (c <? n)%nat then 1 else 0.
Proof.
  induction n as [|n IH]; simpl; [reflexivity|].
  rewrite IH.
  destruct (Nat.ltb_spec c n); destruct (Nat.eqb_spec n c);
    destruct (Nat.ltb_spec c (S n)); try lia; lra.
Qed.

Lemma argmax_from_le (f : nat -> R) (n : nat) : (argmax_from f n <= n)%nat.
Proof.
  induction n as [|n IH]; simpl; [lia|].
  destruct (Rlt_dec _ _); lia.
Qed.

Lemma argmax_from_order (f g : nat -> R) (n : nat) :
  (forall j k, (j <= n)%nat -> (k <= n)%nat -> (f j < f k <-> g j < g k)) ->
  argmax_from f n = argmax_from g n.
Proof.
  induction n as [|n IH]; intros H; simpl; [reflexivity|].
  rewrite <- IH by (intros; apply H; lia).
  pose proof (argmax_from_le f n) as Hle.
  destruct (Rlt_dec (f (argmax_from f n)) (f (S n))) as [Hf|Hf];
    destruct (Rlt_dec (g (argmax_from f n)) (g (S n))) as [Hg|Hg];
    try reflexivity.
  - exfalso. apply Hg. apply H; [lia | lia | exact Hf].
  - exfalso. apply Hf. apply H; [lia | lia | exact Hg].
Qed.

Lemma argmax_from_ext (f g : nat -> R) (n : nat) :
  (forall j, (j <= n)%nat -> f j = g j) -> argmax_from f n = argmax_from g n.
Proof.
  intros H. apply argmax_from_order. intros j k Hj Hk.
  rewrite (H j Hj), (H k Hk). reflexivity.
Qed.

Lemma argmax_from_indicator (c n : nat) :
  argmax_from (fun j => if (j =? c)%nat then 1 else 0) n
  = if (c <=? n)%nat then c else 0%nat.
Proof.
  induction n as [|n IH]; cbn [argmax_from].
  - destruct (Nat.leb_spec c 0); [lia | reflexivity].
  - rewrite IH.
    destruct (Nat.leb_spec c n); destruct (Nat.leb_spec c (S n)); try lia.
    + rewrite Nat.eqb_refl.
      destruct (Nat.eqb_spec (S n) c); [lia|].
      destruct (Rlt_dec 1 0); [lra | reflexivity].
    + assert (c = S n) by lia. subst c. rewrite Nat.eqb_refl.
      destruct (Nat.eqb_spec 0 (S n)); [lia|].
      destruct (Rlt_dec 0 1); [reflexivity | lra].
    + destruct (Nat.eqb_spec 0 c); [lia|].
      destruct (Nat.eqb_spec (S n) c); [lia|].
      destruct (Rlt_dec 0 0); [lra | reflexivity].
Qed.

(** X10 — for labels that are whole numbers from 0 to 9, [one_hot_labels]
    returns a matrix with one row per label and 10 columns in which row
    [i] holds a single 1, in the column of label [i], and zeros elsewhere;
    every row sums to 1, and [argmax] over a row gives the label back. *)
Theorem one_hot_labels_round_trip (labels : ndarray1) (cls : nat -> nat)
    (Hcls : forall i, (i < vshape0 labels)%nat ->
              (cls i < 10)%nat /\ vec labels i = INR (cls i)) :
  exists y, one_hot_labels labels = Some y /\
    mshape0 y = vshape0 labels /\ mshape1 y = 10%nat /\
    forall i, (i < vshape0 labels)%nat ->
      (forall j, (j < 10)%nat ->
         mat y i j = if (j =? cls i)%nat then 1 else 0) /\
      sum_upto (mat y i) 10 = 1 /\
      argmax_from (mat y i) 9 = cls i.
Proof.
  assert (Hidx : forall i, (i < vshape0 labels)%nat ->
            astype_int (vec labels i) = Z.of_nat (cls i)).
  { intros i Hi. destruct (Hcls i Hi) as [_ ->].
    rewrite INR_IZR_INZ. apply astype_int_IZR. }
  unfold one_hot_labels.
  assert (Hall : all_upto (fun i => index_in_bounds 10 (astype_int (vec labels i)))
                   (vshape0 labels) = true).
  { apply all_upto_true. intros i Hi. rewrite (Hidx i Hi).
    destruct (Hcls i Hi) as [Hc _]. unfold index_in_bounds.
    apply andb_true_iff. split; [apply Z.leb_le | apply Z.ltb_lt]; lia. }
  rewrite Hall. eexists. split; [reflexivity|]. cbn [mshape0 mshape1 mat].
  split; [reflexivity|]. split; [reflexivity|].
  intros i Hi. destruct (Hcls i Hi) as [Hc _].
  assert (Hent : forall j,
            (if (wrap_index 10 (astype_int (vec labels i)) =? Z.of_nat j)%Z
             then 1 else 0) = (if (j =? cls i)%nat then 1 else 0)).
  { intros j. rewrite (Hidx i Hi). unfold wrap_index.
    destruct (Z.ltb_spec (Z.of_nat (cls i)) 0); [lia|].
    destruct (Z.eqb_spec (Z.of_nat (cls i)) (Z.of_nat j));
      destruct (Nat.eqb_spec j (cls i)); try lia; reflexivity. }
  split; [intros j _; apply Hent|]. split.
  - rewrite (sum_upto_ext _ (fun j => if (j =? cls i)%nat then 1 else 0))
      by (intros; apply Hent).
    rewrite sum_upto_indicator.
    destruct (Nat.ltb_spec (cls i) 10); [reflexivity | lia].
  - rewrite (argmax_from_ext _ (fun j => if (j =? cls i)%nat then 1 else 0))
      by (intros; apply Hent).
    rewrite argmax_from_indicator.
    destruct (Nat.leb_spec (cls i) 9); [reflexivity | lia].
Qed.

Lemma one_hot_labels_round_trip_witness :
  exists y, one_hot_labels (of_list [3; 0; 9]) = Some y /\
    argmax_from (mat y 0) 9 = 3%nat /\ argmax_from (mat y 2) 9 = 9%nat.
Proof.
  destruct (@one_hot_labels_round_trip (of_list [3; 0; 9])
              (fun i => nth i [3; 0; 9]%nat 0%nat))
    as (y & Hy & _ & _ & Hrows).
  - intros i Hi. simpl in Hi.
    destruct i as [|[|[|i]]]; simpl; try lia; split; try lia; lra.
  - exists y. split; [exact Hy|].
    split; [apply (Hrows 0%nat) | apply (Hrows 2%nat)]; simpl; lia.
Defined.

(** X11 — [one_hot_labels] truncates each label towards zero and uses it
    as a column index: it fails ([IndexError]) exactly when some truncated
    label lies outside [-10 .. 9]; otherwise a negative label [-k] is not
    rejected but marks column [10 - k], and a label with a fractional part
    marks the column of its integer part. *)
Theorem one_hot_labels_index_semantics (labels : ndarray1) :
  (one_hot_labels labels = None <->
     exists i, (i < vshape0 labels)%nat /\
       ~ (-10 <= astype_int (vec labels i) < 10)%Z) /\
  (forall y, one_hot_labels labels = Some y ->
     forall i j, (i < vshape0 labels)%nat ->
       mat y i j =
       if (Z.of_nat j =? astype_int (vec labels i) mod 10)%Z then 1 else 0) /\
  (forall v k, (0 <= k)%Z -> IZR k <= v < IZR k + 1 ->
     astype_int v = k /\ astype_int (- v) = (- k)%Z).
Proof.
  split; [|split].
  - unfold one_hot_labels.
    destruct (all_upto _ _) eqn:Hall.
    + split; [discriminate|]. intros (i & Hi & Hout). exfalso. apply Hout.
      apply (proj1 (all_upto_true _ _) Hall) in Hi.
      unfold index_in_bounds in Hi. apply andb_true_iff in Hi as [H1 H2].
      apply Z.leb_le in H1. apply Z.ltb_lt in H2. lia.
    + split; [|reflexivity]. intros _.
      assert (Hex : forall n,
                all_upto (fun i => index_in_bounds 10 (astype_int (vec labels i))) n
                  = false ->
                exists i, (i < n)%nat /\
                  ~ (-10 <= astype_int (vec labels i) < 10)%Z).
      { induction n as [|n IH]; simpl; [discriminate|].
        intros H. apply andb_false_iff in H as [H|H].
        - destruct (IH H) as (i & Hi & Hout). exists i. split; [lia | exact Hout].
        - exists n. split; [lia|]. intros [H1 H2].
          unfold index_in_bounds in H. apply andb_false_iff in H as [H|H].
          + apply Z.leb_gt in H. lia.
          + apply Z.ltb_ge in H. lia. }
      apply Hex. exact Hall.
  - intros y Hy i j Hi. unfold one_hot_labels in Hy.
    destruct (all_upto _ _) eqn:Hall; [|discriminate Hy].
    injection Hy as <-. simpl.
    apply (proj1 (all_upto_true _ _) Hall) in Hi.
    unfold index_in_bounds in Hi. apply andb_true_iff in Hi as [H1 H2].
    apply Z.leb_le in H1. apply Z.ltb_lt in H2.
    set (t := astype_int (vec labels i)) in *.
    assert (Hw : wrap_index 10 t = (t mod 10)%Z).
    { unfold wrap_index. destruct (Z.ltb_spec t 0).
      - apply Z.mod_unique with (q := (-1)%Z); lia.
      - symmetry. apply Z.mod_small. lia. }
    rewrite Hw. rewrite (Z.eqb_sym (t mod 10)). reflexivity.
  - apply astype_int_trunc.
Qed.

(** ** [get_initial_params], lines 46-69 *)

(** X12 — for non-negative sizes, [get_initial_params] returns [W1] of
    shape D x H, [b1] of length H, [W2] of shape H x C and [b2] of length
    C; the biases are zero; the weights are consecutive samples of the
    generator, [W1] first and then [W2], each in row-major order, so no
    sample is used for two weights; and the generator is left after the
    [D*H + H*C] samples that were consumed. *)
Theorem get_initial_params_layout (normal : nat -> R)
    (input_size num_hidden num_output : Z) (pos : nat)
    (Hi : (0 <= input_size)%Z) (Hh : (0 <= num_hidden)%Z)
    (Ho : (0 <= num_output)%Z) :
  let D := Z.to_nat input_size in
  let H := Z.to_nat num_hidden in
  let C := Z.to_nat num_output in
  exists params,
    get_initial_params normal input_size num_hidden num_output pos
      = (Ok params, (pos + D * H + H * C)%nat) /\
    params_shape params D H C /\
    (forall j, vec (b1 params) j = 0) /\
    (forall j, vec (b2 params) j = 0) /\
    (forall i j, (i < D)%nat -> (j < H)%nat ->
       mat (W1 params) i j = normal (pos + (i * H + j))%nat /\
       (i * H + j < D * H)%nat) /\
    (forall i j, (i < H)%nat -> (j < C)%nat ->
       mat (W2 params) i j = normal (pos + D * H + (i * C + j))%nat /\
       (i * C + j < H * C)%nat).
Proof.
  intros D H C.
  unfold get_initial_params, sbind, random_normal, lift, zeros, sret.
  destruct (Z.ltb_spec input_size 0); [lia|].
  destruct (Z.ltb_spec num_hidden 0); [lia|].
  destruct (Z.ltb_spec num_output 0); [lia|].
  simpl. fold D H C. eexists. split; [reflexivity|].
  unfold params_shape. simpl.
  split; [repeat split|]. split; [reflexivity|]. split; [reflexivity|].
  split.
  - intros i j Hi' Hj. split; [f_equal; lia | nia].
  - intros i j Hi' Hj. split; [f_equal; lia | nia].
Qed.

Lemma get_initial_params_layout_witness :
  exists params,
    get_initial_params ex_normal 2 3 10 0%nat = (Ok params, 36%nat) /\
    params_shape params 2 3 10.
Proof.
  destruct (@get_initial_params_layout ex_normal 2 3 10 0%nat)
    as (params & Hrun & Hshape & _); try lia.
  exists params. split; [exact Hrun | exact Hshape].
Defined.

(** X13 — [get_initial_params] raises [ValueError] as soon as a size is
    negative.  When the input size or the hidden size is negative the
    generator is untouched; when only the output size is negative the
    call fails after [W1] was drawn, so the generator has advanced by
    [D*H] samples although no parameters were returned. *)
Theorem get_initial_params_negative_size (normal : nat -> R)
    (input_size num_hidden num_output : Z) (pos : nat) :
  ((input_size < 0 \/ num_hidden < 0)%Z ->
     get_initial_params normal input_size num_hidden num_output pos
       = (Raise ValueError, pos)) /\
  ((0 <= input_size)%Z -> (0 <= num_hidden)%Z -> (num_output < 0)%Z ->
     get_initial_params normal input_size num_hidden num_output pos
       = (Raise ValueError,
          (pos + Z.to_nat input_size * Z.to_nat num_hidden)%nat)).
Proof.
  unfold get_initial_params, sbind, random_normal, lift, zeros, sret. split.
  - intros Hneg.
    destruct (Z.ltb_spec input_size 0); [reflexivity|].
    destruct (Z.ltb_spec num_hidden 0); [reflexivity | lia].
  - intros Hi Hh Ho.
    destruct (Z.ltb_spec input_size 0); [lia|].
    destruct (Z.ltb_spec num_hidden 0); [lia|].
    destruct (Z.ltb_spec num_output 0); [|lia].
    reflexivity.
Qed.

(** ** [forward_prop], lines 72-105 *)

(** Over the reals every entry of a row of [softmax] is positive. *)
Lemma softmax_row (x y : ndarray2) (i : nat) :
  softmax x = Ok y -> (i < mshape0 x)%nat ->
  (forall j, (j < mshape1 x)%nat -> 0 < mat y i j <= 1) /\
  sum_upto (mat y i) (mshape1 x) = 1.
Proof.
  intros Hy Hi.
  set (m := max_from (mat x i) (mshape1 x - 1)).
  set (s := sum_upto (fun k => exp (mat x i k - m)) (mshape1 x)).
  assert (He : forall j, (j < mshape1 x)%nat ->
            0 < s /\ mat y i j = exp (mat x i j - m) / s).
  { intros j Hj. apply (@softmax_entry _ _ i j Hy Hi Hj). }
  split.
  - intros j Hj. destruct (He j Hj) as (Hs & ->).
    assert (Hle : exp (mat x i j - m) <= s).
    { unfold s.
      apply (sum_upto_ge_term (fun k => exp (mat x i k - m))); [|exact Hj].
      intros. left. apply exp_pos. }
    split.
    + apply Rdiv_lt_0_compat; [apply exp_pos | exact Hs].
    + apply (Rmult_le_reg_r s); [exact Hs|].
      unfold Rdiv. rewrite Rmult_assoc, Rinv_l by lra. lra.
  - destruct (softmax_inv _ Hy) as (Hc & _ & _).
    destruct (He 0%nat Hc) as (Hs & _).
    rewrite (sum_upto_ext _ (fun j => exp (mat x i j - m) / s))
      by (intros j Hj; apply He; exact Hj).
    rewrite sum_upto_div. fold s. unfold Rdiv. apply Rinv_r. lra.
Qed.

Lemma forward_prop_inv (data labels : ndarray2) (params : Params)
    (a1 a2 : ndarray2) (loss : R) :
  forward_prop data labels params = Ok (a1, a2, loss) ->
  (exists z1, a1 = sigmoid z1) /\
  (exists z2, softmax z2 = Ok a2) /\
  exists ll, ew2 Rmult labels (mmap ln a2) = Ok ll /\
    loss = - (1 / INR (mshape0 labels)) * vsum (sum_axis1 ll).
Proof.
  unfold forward_prop. intros H. do 5 bind_step.
  destruct (Nat.eqb_spec (mshape0 labels) 0) as [|Hn]; [discriminate H|].
  bind_step. injection H as <- <- <-.
  split; [eexists; reflexivity|]. split; [eexists; exact E3|].
  eexists. split; [exact E4 | reflexivity].
Qed.

Lemma forward_prop_rows (data labels : ndarray2) (params : Params)
    (a1 a2 : ndarray2) (loss : R) :
  forward_prop data labels params = Ok (a1, a2, loss) ->
  forall i, (i < mshape0 a2)%nat ->
    (forall j, (j < mshape1 a2)%nat -> 0 < mat a2 i j <= 1) /\
    sum_upto (mat a2 i) (mshape1 a2) = 1.
Proof.
  intros Hf.
  destruct (forward_prop_inv _ _ _ Hf) as (_ & (z2 & Hz2) & _).
  intros i Hi. destruct (softmax_inv _ Hz2) as (_ & R0 & R1).
  rewrite R0 in Hi. rewrite R1. apply (softmax_row _ Hz2 Hi).
Qed.

(** X14 — whenever [forward_prop] returns, every entry of the hidden
    activation lies between 0 and 1, and the output is a probability
    distribution per row: its entries lie between 0 and 1 and every row
    sums to 1; the bounds 0 and 1 are included. *)
Theorem forward_prop_outputs (data labels : ndarray2) (params : Params)
    (a1 a2 : ndarray2) (loss : R)
    (Hf : forward_prop data labels params = Ok (a1, a2, loss)) :
  (forall i j, 0 <= mat a1 i j <= 1) /\
  (forall i, (i < mshape0 a2)%nat ->
     (forall j, (j < mshape1 a2)%nat -> 0 <= mat a2 i j <= 1) /\
     sum_upto (mat a2 i) (mshape1 a2) = 1).
Proof.
  split.
  - destruct (forward_prop_inv _ _ _ Hf) as ((z1 & ->) & _).
    intros i j. simpl. pose proof (sigmoid_entry_range (mat z1 i j)). lra.
  - intros i Hi. destruct (forward_prop_rows _ _ _ Hf Hi) as (Hent & Hsum).
    split; [|exact Hsum].
    intros j Hj. pose proof (Hent j Hj). lra.
Qed.

Lemma forward_prop_outputs_witness :
  exists a1 a2 loss,
    forward_prop ex_data ex_labels ex_params = Ok (a1, a2, loss) /\
    sum_upto (mat a2 0) 2 = 1.
Proof.
  destruct (forward_prop_ok ex_batch_shape ex_params_shape)
    as (a1 & a2 & loss & Hf & _ & _ & H20 & H21); [lia | lia |].
  exists a1, a2, loss. split; [exact Hf|].
  rewrite <- H21.
  apply (proj2 (@forward_prop_outputs _ _ _ _ _ _ Hf)). lia.
Defined.

(** X16 — with labels that have no row, [forward_prop] raises
    [ZeroDivisionError] whenever the data and the parameters fit together:
    the [1/n] of the loss is evaluated before the labels are multiplied
    with the output, so the mismatch between the rows of data and labels
    is never reported, and [backward_prop] and [nn_test] fail the same
    way. *)
Theorem forward_prop_empty_labels (data labels : ndarray2) (params : Params)
    (f : forward_t) (D H C : nat)
    (Hdata : mshape1 data = D) (Hps : params_shape params D H C)
    (HC : (1 <= C)%nat) (Hempty : mshape0 labels = 0%nat) :
  forward_prop data labels params = Raise ZeroDivisionError /\
  backward_prop data labels params f = Raise ZeroDivisionError /\
  nn_test data labels params = Raise ZeroDivisionError.
Proof.
  assert (Hf : forward_prop data labels params = Raise ZeroDivisionError).
  { destruct Hps as (Hw0 & Hw1 & Hb1 & Hv0 & Hv1 & Hb2).
    unfold forward_prop.
    rewrite dot_ok by congruence. simpl.
    rewrite ew21_ok by (simpl; congruence). simpl.
    rewrite dot_ok by (simpl; congruence). simpl.
    rewrite ew21_ok by (simpl; congruence). simpl.
    rewrite softmax_value by (simpl; lia). simpl.
    rewrite Hempty. reflexivity. }
  split; [exact Hf|]. split.
  - unfold backward_prop. rewrite Hf. reflexivity.
  - unfold nn_test. rewrite Hf. reflexivity.
Qed.

Lemma forward_prop_empty_labels_witness :
  forward_prop ex_data (of_rows 2 []) ex_params = Raise ZeroDivisionError.
Proof.
  exact (proj1 (@forward_prop_empty_labels ex_data (of_rows 2 []) ex_params
                  forward_prop 2 3 2 eq_refl ex_params_shape
                  (le_S _ _ (le_n 1)) eq_refl)).
Defined.

(** ** [backward_prop] and [backward_prop_regularized], lines 108-195 *)

Lemma sum_upto_zero_const (n : nat) : sum_upto (fun _ => 0) n = 0.
Proof. induction n as [|n IH]; simpl; [reflexivity | rewrite IH; ring]. Qed.

Lemma sum_upto_minus (f g : nat -> R) (n : nat) :
  sum_upto (fun k => f k - g k) n = sum_upto f n - sum_upto g n.
Proof. induction n as [|n IH]; simpl; [ring | rewrite IH; ring]. Qed.

Lemma sum_upto_zero_rows (f : nat -> R) (n : nat) :
  (forall k, (k < n)%nat -> f k = 0) -> sum_upto f n = 0.
Proof.
  intros H. rewrite (sum_upto_ext f (fun _ => 0) H).
  apply sum_upto_zero_const.
Qed.

Lemma sum_upto_swap (f : nat -> nat -> R) (n m : nat) :
  sum_upto (fun j => sum_upto (fun i => f i j) n) m
  = sum_upto (fun i => sum_upto (fun j => f i j) m) n.
Proof.
  induction m as [|m IH]; simpl.
  - symmetry. apply sum_upto_zero_const.
  - rewrite IH. clear IH. induction n as [|n IHn]; simpl; [lra|].
    rewrite <- IHn. ring.
Qed.

Lemma backward_prop_b2_value (data labels : ndarray2) (params : Params)
    (f : forward_t) (N D H C : nat) :
  batch_shape data labels N D C -> params_shape params D H C ->
  (1 <= N)%nat -> (1 <= C)%nat ->
  exists a1 a2 loss grad,
    forward_prop data labels params = Ok (a1, a2, loss) /\
    backward_prop data labels params f = Ok grad /\
    mshape0 a2 = N /\ mshape1 a2 = C /\
    forall j, (j < C)%nat ->
      vec (b2 grad) j = sum_upto (fun i => mat a2 i j - mat labels i j) N.
Proof.
  intros Hbs Hps HN HC.
  destruct (forward_prop_ok Hbs Hps HN HC)
    as (a1 & a2 & loss & Hf & Ha10 & Ha11 & Ha20 & Ha21).
  destruct (backward_prop_ok f Hbs Hps HN HC) as (grad & Hg & _).
  exists a1, a2, loss, grad.
  split; [exact Hf|]. split; [exact Hg|]. split; [exact Ha20|].
  split; [exact Ha21|].
  destruct Hbs as (Hd0 & Hd1 & Hl0 & Hl1).
  destruct Hps as (Hw0 & Hw1 & Hb1 & Hv0 & Hv1 & Hb2).
  unfold backward_prop in Hg. rewrite Hf in Hg. simpl in Hg.
  rewrite ew2_ok in Hg by congruence. simpl in Hg.
  rewrite dot_ok in Hg by (simpl; congruence). simpl in Hg.
  rewrite dot_ok in Hg by (simpl; congruence). simpl in Hg.
  rewrite ew2_ok in Hg by reflexivity. simpl in Hg.
  rewrite ew2_ok in Hg by (simpl; congruence). simpl in Hg.
  rewrite dot_ok in Hg by (simpl; congruence). simpl in Hg.
  rewrite ?Hd0, ?Hd1, ?Hl0, ?Hl1, ?Ha10, ?Ha11, ?Ha20, ?Ha21, ?Hv0, ?Hv1 in Hg.
  injection Hg as Hg.
  intros j Hj. rewrite <- Hg. simpl.
  apply sum_upto_ext. intros i Hi.
  rewrite !(bidx_lt Hi), !(bidx_lt Hj). reflexivity.
Qed.

(** X17 — on a well-shaped batch whose label rows each sum to 1 (one-hot
    labels, or any distribution per row), the entries of the output bias
    gradient [db2] sum to zero: a gradient step moves the output biases
    without changing their sum. *)
Theorem backward_prop_output_bias_gradient_sums_to_zero
    (data labels : ndarray2) (params : Params) (f : forward_t)
    (N D H C : nat)
    (Hbs : batch_shape data labels N D C) (Hps : params_shape params D H C)
    (HN : (1 <= N)%nat) (HC : (1 <= C)%nat)
    (Hlab : forall i, (i < N)%nat -> sum_upto (mat labels i) C = 1) :
  exists grad,
    backward_prop data labels params f = Ok grad /\
    sum_upto (vec (b2 grad)) C = 0.
Proof.
  destruct (backward_prop_b2_value f Hbs Hps HN HC)
    as (a1 & a2 & loss & grad & Hf & Hg & Ha20 & Ha21 & Hb2).
  exists grad. split; [exact Hg|].
  rewrite (sum_upto_ext _ _ Hb2).
  rewrite (sum_upto_swap (fun i j => mat a2 i j - mat labels i j)).
  apply sum_upto_zero_rows. intros i Hi.
  rewrite sum_upto_minus.
  destruct (forward_prop_inv _ _ _ Hf) as (_ & (z2 & Hz2) & _).
  destruct (softmax_inv _ Hz2) as (_ & R0 & R1).
  assert (Hrow : sum_upto (mat a2 i) (mshape1 z2) = 1)
    by (apply (softmax_row _ Hz2); lia).
  replace (mshape1 z2) with C in Hrow by congruence.
  change (fun j => mat a2 i j) with (mat a2 i).
  change (fun j => mat labels i j) with (mat labels i).
  rewrite Hrow, (Hlab i Hi). ring.
Qed.

Lemma ex_labels_rows (i : nat) :
  (i < 5)%nat -> sum_upto (mat ex_labels i) 2 = 1.
Proof.
  intros Hi. destruct i as [|[|[|[|[|i]]]]]; try lia; simpl; lra.
Qed.

Lemma backward_prop_output_bias_gradient_sums_to_zero_witness :
  exists grad,
    backward_prop ex_data ex_labels ex_params forward_prop = Ok grad /\
    sum_upto (vec (b2 grad)) 2 = 0.
Proof.
  apply (@backward_prop_output_bias_gradient_sums_to_zero
           ex_data ex_labels ex_params forward_prop 5 2 3 2
           ex_batch_shape ex_params_shape); try lia.
  exact ex_labels_rows.
Defined.

(** X18 — for every regularization strength, [backward_prop_regularized]
    raises exactly when [backward_prop] raises, with the same exception;
    when both return, the bias gradients are the same arrays, the weight
    gradients have the same shapes, and each weight gradient is the plain
    one plus [2 * reg] times the weight: the biases are not regularized. *)
Theorem backward_prop_regularized_adds_weight_penalty (data labels : ndarray2)
    (params : Params) (f g : forward_t) (reg : R) :
  match backward_prop data labels params g,
        backward_prop_regularized data labels params f reg with
  | Ok plain, Ok regd =>
      b1 regd = b1 plain /\ b2 regd = b2 plain /\
      mshape0 (W1 regd) = mshape0 (W1 plain) /\
      mshape1 (W1 regd) = mshape1 (W1 plain) /\
      mshape0 (W2 regd) = mshape0 (W2 plain) /\
      mshape1 (W2 regd) = mshape1 (W2 plain) /\
      (forall i j, (i < mshape0 (W1 params))%nat ->
         (j < mshape1 (W1 params))%nat ->
         mat (W1 regd) i j = mat (W1 plain) i j + reg * mat (W1 params) i j * 2) /\
      (forall i j, (i < mshape0 (W2 params))%nat ->
         (j < mshape1 (W2 params))%nat ->
         mat (W2 regd) i j = mat (W2 plain) i j + reg * mat (W2 params) i j * 2)
  | Raise e, Raise e' => e = e'
  | _, _ => False
  end.
Proof.
  rewrite (backward_prop_regularized_unfold data labels params f g).
  destruct (backward_prop data labels params g) as [grad|e] eqn:E; simpl;
    [|reflexivity].
  apply backward_prop_shapes in E as (H1 & H2 & H3 & H4 & H5 & H6).
  rewrite inplace2_ok; simpl.
  2: symmetry; exact H4.
  2: rewrite H5; apply broadcast_dim_refl.
  rewrite inplace2_ok; simpl.
  2: symmetry; exact H1.
  2: apply (broadcast_dim_back _ _ H2).
  repeat (split; [reflexivity|]).
  split; intros i j Hi Hj; rewrite !(bidx_lt Hi), !(bidx_lt Hj); reflexivity.
Qed.

(** ** [gradient_descent_epoch], lines 198-236 *)

Lemma inplace1_mismatch (f : R -> R -> R) (x y : ndarray1) :
  vshape0 y <> vshape0 x -> vshape0 y <> 1%nat ->
  inplace1 f x y = Raise ValueError.
Proof.
  intros Hne H1. unfold inplace1, broadcast_dim.
  destruct (Nat.eqb_spec (vshape0 x) (vshape0 y)); [congruence|].
  destruct (Nat.eqb_spec (vshape0 x) 1) as [Hx|Hx]; simpl.
  - destruct (Nat.eqb_spec (vshape0 y) (vshape0 x)); [congruence | reflexivity].
  - destruct (Nat.eqb_spec (vshape0 y) 1); [contradiction | reflexivity].
Qed.

(** X19 — a gradient step is not atomic.  The four entries are updated one
    after the other, [W1], [W2], [b1], [b2]: when the gradient for [b2]
    does not fit while the other three do, the step raises [ValueError]
    with [W1], [W2] and [b1] already updated in the store and [b2] left as
    it was. *)
Theorem gradient_step_partial_update (lr : R) (b : Z) (fwd : forward_t)
    (bwd : backward_t) (batch_X batch_y : ndarray2) (params grad : Params)
    (Hgrad : bwd batch_X batch_y params fwd = Ok grad)
    (HW1 : mshape0 (W1 grad) = mshape0 (W1 params) /\
           mshape1 (W1 grad) = mshape1 (W1 params))
    (HW2 : mshape0 (W2 grad) = mshape0 (W2 params) /\
           mshape1 (W2 grad) = mshape1 (W2 params))
    (Hb1 : vshape0 (b1 grad) = vshape0 (b1 params))
    (Hb2 : vshape0 (b2 grad) <> vshape0 (b2 params) /\
           vshape0 (b2 grad) <> 1%nat) :
  exists params',
    gradient_step lr b fwd bwd batch_X batch_y params
      = (Raise ValueError, params') /\
    b2 params' = b2 params /\
    (forall i j, (i < mshape0 (W1 params))%nat -> (j < mshape1 (W1 params))%nat ->
       mat (W1 params') i j = mat (W1 params) i j - lr * mat (W1 grad) i j) /\
    (forall i j, (i < mshape0 (W2 params))%nat -> (j < mshape1 (W2 params))%nat ->
       mat (W2 params') i j = mat (W2 params) i j - lr * mat (W2 grad) i j) /\
    (forall j, (j < vshape0 (b1 params))%nat ->
       vec (b1 params') j = vec (b1 params) j - lr * (vec (b1 grad) j / IZR b)).
Proof.
  destruct HW1 as [HW10 HW11]. destruct HW2 as [HW20 HW21].
  destruct Hb2 as [Hb2 Hb21].
  unfold gradient_step, sbind, get, lift. rewrite Hgrad.
  unfold isub_W1. rewrite inplace2_ok; simpl;
    [|congruence | rewrite HW11; apply broadcast_dim_refl].
  unfold isub_W2. rewrite inplace2_ok; simpl;
    [|congruence | rewrite HW21; apply broadcast_dim_refl].
  unfold isub_b1. rewrite inplace1_ok; simpl; [|congruence].
  unfold isub_b2. rewrite inplace1_mismatch; simpl; [|congruence | exact Hb21].
  eexists. split; [reflexivity|]. simpl.
  split; [reflexivity|].
  split; [|split].
  - intros i j Hi Hj. rewrite !bidx_lt by congruence. reflexivity.
  - intros i j Hi Hj. rewrite !bidx_lt by congruence. reflexivity.
  - intros j Hj. rewrite !bidx_lt by congruence. reflexivity.
Qed.

Lemma gradient_step_partial_update_witness :
  exists params',
    gradient_step 1 1 forward_prop
      (fun _ _ p _ => Ok (mkParams (W1 p) (b1 p) (W2 p) (of_list [1; 2; 3])))
      ex_data ex_labels ex_params
    = (Raise ValueError, params') /\
    b2 params' = b2 ex_params.
Proof.
  destruct (@gradient_step_partial_update 1 1 forward_prop
              (fun _ _ p _ => Ok (mkParams (W1 p) (b1 p) (W2 p) (of_list [1; 2; 3])))
              ex_data ex_labels ex_params _ eq_refl)
    as (params' & Hstep & Hb2 & _); simpl; try (split; lia); try lia.
  exists params'. split; [exact Hstep | exact Hb2].
Defined.

Lemma same_shapes_refl (p : Params) : same_shapes p p.
Proof. unfold same_shapes. repeat split. Qed.

Lemma same_shapes_trans (p q r : Params) :
  same_shapes p q -> same_shapes q r -> same_shapes p r.
Proof.
  unfold same_shapes. intros (A1 & A2 & A3 & A4 & A5 & A6)
    (B1 & B2 & B3 & B4 & B5 & B6).
  repeat split; congruence.
Qed.

Lemma never_reshapes_sbind (A B : Type) (m : M A) (k : A -> M B) :
  never_reshapes m -> (forall a, never_reshapes (k a)) ->
  never_reshapes (sbind m k).
Proof.
  intros Hm Hk p. unfold sbind. specialize (Hm p).
  destruct (m p) as [[a|e] p']; simpl in *.
  - eapply same_shapes_trans; [apply Hk | exact Hm].
  - exact Hm.
Qed.

Lemma never_reshapes_for_each (l : list nat) (body : nat -> M unit) :
  (forall i, never_reshapes (body i)) -> never_reshapes (for_each l body).
Proof.
  intros Hb. induction l as [|i l IH]; simpl.
  - intros p. apply same_shapes_refl.
  - apply never_reshapes_sbind; auto.
Qed.

Lemma never_reshapes_gradient_step (lr : R) (b : Z) (fwd : forward_t)
    (bwd : backward_t) (batch_X batch_y : ndarray2) :
  never_reshapes (gradient_step lr b fwd bwd batch_X batch_y).
Proof.
  unfold gradient_step.
  apply never_reshapes_sbind; [intros p; apply same_shapes_refl | intros params].
  apply never_reshapes_sbind; [intros p; apply same_shapes_refl | intros grad].
  apply never_reshapes_sbind; [|intros _].
  { intros p. unfold isub_W1.
    destruct (inplace2 _ _ _) as [w|e] eqn:E; simpl; [|apply same_shapes_refl].
    apply inplace2_shape in E as [E0 E1].
    unfold same_shapes. simpl. repeat split; assumption. }
  apply never_reshapes_sbind; [|intros _].
  { intros p. unfold isub_W2.
    destruct (inplace2 _ _ _) as [w|e] eqn:E; simpl; [|apply same_shapes_refl].
    apply inplace2_shape in E as [E0 E1].
    unfold same_shapes. simpl. repeat split; assumption. }
  apply never_reshapes_sbind; [|intros _].
  { intros p. unfold isub_b1.
    destruct (inplace1 _ _ _) as [w|e] eqn:E; simpl; [|apply same_shapes_refl].
    apply inplace1_shape in E.
    unfold same_shapes. simpl. repeat split; assumption. }
  intros p. unfold isub_b2.
  destruct (inplace1 _ _ _) as [w|e] eqn:E; simpl; [|apply same_shapes_refl].
  apply inplace1_shape in E.
  unfold same_shapes. simpl. repeat split; assumption.
Qed.

Lemma never_reshapes_epoch (train_data train_labels : ndarray2) (lr : R)
    (b : Z) (fwd : forward_t) (bwd : backward_t) :
  never_reshapes (gradient_descent_epoch train_data train_labels lr b fwd bwd).
Proof.
  unfold gradient_descent_epoch.
  apply never_reshapes_sbind; [intros p; apply same_shapes_refl | intros n].
  apply never_reshapes_for_each. intros i. apply never_reshapes_gradient_step.
Qed.

(** X20 — whatever the shapes of the parameters, whatever the gradient
    function returns, and whether the epoch returns or raises, an epoch
    leaves every parameter with the shape it had: the updates are in place
    and never reshape. *)
Theorem gradient_descent_epoch_keeps_shapes
    (train_data train_labels : ndarray2) (lr : R) (b : Z)
    (fwd : forward_t) (bwd : backward_t) (params : Params) :
  let params' :=
    snd (gradient_descent_epoch train_data train_labels lr b fwd bwd params) in
  mshape0 (W1 params') = mshape0 (W1 params) /\
  mshape1 (W1 params') = mshape1 (W1 params) /\
  vshape0 (b1 params') = vshape0 (b1 params) /\
  mshape0 (W2 params') = mshape0 (W2 params) /\
  mshape1 (W2 params') = mshape1 (W2 params) /\
  vshape0 (b2 params') = vshape0 (b2 params).
Proof.
  intros params'. apply never_reshapes_epoch.
Qed.

Lemma for_each_ext (l : list nat) (body body' : nat -> M unit) :
  (forall i, In i l -> body i = body' i) ->
  for_each l body = for_each l body'.
Proof.
  induction l as [|i l IH]; intros H; simpl; [reflexivity|].
  rewrite (H i) by (left; reflexivity).
  rewrite IH by (intros; apply H; right; assumption). reflexivity.
Qed.

(** X21 — the number of batches and their bounds are taken from the labels
    alone: when [train_data] has more rows than [train_labels], the
    surplus rows are never read and the epoch is the one of the data cut
    to the number of label rows, for every batch size. *)
Theorem epoch_ignores_surplus_data_rows
    (train_data train_labels : ndarray2) (lr : R) (b : Z)
    (fwd : forward_t) (bwd : backward_t)
    (Hrows : (mshape0 train_labels <= mshape0 train_data)%nat) :
  gradient_descent_epoch train_data train_labels lr b fwd bwd =
  gradient_descent_epoch (rows_window train_data 0 (mshape0 train_labels))
                         train_labels lr b fwd bwd.
Proof.
  unfold gradient_descent_epoch.
  destruct (int_div (mshape0 train_labels) b) as [q|e] eqn:Eq;
    [|reflexivity].
  cbv beta iota delta [sbind lift].
  erewrite for_each_ext; [reflexivity|].
  intros i Hi. apply in_seq in Hi. simpl.
  unfold int_div in Eq.
  destruct (Z.eqb_spec b 0) as [|Hb0]; [discriminate Eq|].
  injection Eq as <-.
  assert (Hb : (0 < b)%Z).
  { destruct (Z.lt_trichotomy b 0) as [Hneg|[H0|Hpos]]; [|lia | exact Hpos].
    exfalso.
    assert (Z.quot (Z.of_nat (mshape0 train_labels)) b <= 0)%Z; [|lia].
    rewrite <- (Z.opp_involutive b), Z.quot_opp_r by lia.
    assert (0 <= Z.quot (Z.of_nat (mshape0 train_labels)) (- b))%Z; [|lia].
    apply Z.quot_pos; lia. }
  rewrite Z.quot_div_nonneg in Hi by lia.
  assert (Hq : Z.to_nat (Z.of_nat (mshape0 train_labels) / b)
               = (mshape0 train_labels / Z.to_nat b)%nat).
  { rewrite <- (Z2Nat.id b) at 1 by lia.
    rewrite <- Nat2Z.inj_div, Nat2Z.id. reflexivity. }
  rewrite Hq in Hi.
  assert (Hfit : (i * Z.to_nat b + Z.to_nat b <= mshape0 train_labels)%nat)
    by (apply full_batch_fits; lia).
  rewrite !slice_rows_window by (try exact Hb; simpl; lia).
  reflexivity.
Qed.

Lemma epoch_ignores_surplus_data_rows_witness :
  gradient_descent_epoch ex_data (rows_window ex_labels 0 4) 1 2
    forward_prop backward_prop =
  gradient_descent_epoch (rows_window ex_data 0 4) (rows_window ex_labels 0 4)
    1 2 forward_prop backward_prop.
Proof.
  apply (@epoch_ignores_surplus_data_rows ex_data (rows_window ex_labels 0 4)).
  simpl. lia.
Defined.

Lemma sbind_assoc (S A B C : Type) (m : ST S A) (k : A -> ST S B)
    (h : B -> ST S C) :
  sbind (sbind m k) h = sbind m (fun a => sbind (k a) h).
Proof.
  apply functional_extensionality. intros s. unfold sbind.
  destruct (m s) as [[a|e] s']; reflexivity.
Qed.

Lemma sbind_sret_l (S A B : Type) (a : A) (k : A -> ST S B) :
  sbind (sret a) k = k a.
Proof. apply functional_extensionality. intros s. reflexivity. Qed.

Lemma run_batches_app (step : ndarray2 -> ndarray2 -> M unit)
    (l1 l2 : list (ndarray2 * ndarray2)) :
  run_batches step (l1 ++ l2) =
  (run_batches step l1 ;;; run_batches step l2).
Proof.
  induction l1 as [|[bx by_] l1 IH]; simpl.
  - rewrite sbind_sret_l. reflexivity.
  - rewrite IH, sbind_assoc. reflexivity.
Qed.

Lemma map_seq_shift (A : Type) (g : nat -> A) (k m : nat) :
  map g (seq k m) = map (fun i => g (k + i)%nat) (seq 0 m).
Proof.
  revert g k. induction m as [|m IH]; intros g k; simpl; [reflexivity|].
  rewrite Nat.add_0_r. f_equal.
  rewrite (IH g (S k)), (IH (fun i => g (k + i)%nat) 1%nat).
  apply map_ext. intros i. f_equal. lia.
Qed.

(** X22 — batches are processed strictly in sequence: an epoch over the
    whole training set is an epoch over its first [k] batches followed, on
    the parameters that epoch leaves, by an epoch over the remaining
    rows. *)
Theorem epoch_splits_at_batch_boundary
    (train_data train_labels : ndarray2) (lr : R) (b : Z)
    (fwd : forward_t) (bwd : backward_t) (k : nat)
    (Hb : (0 < b)%Z) (Hrows : mshape0 train_data = mshape0 train_labels)
    (Hk : (k <= mshape0 train_labels / Z.to_nat b)%nat) :
  let N := mshape0 train_labels in
  let cut := (k * Z.to_nat b)%nat in
  gradient_descent_epoch train_data train_labels lr b fwd bwd =
  (gradient_descent_epoch (rows_window train_data 0 cut)
                          (rows_window train_labels 0 cut) lr b fwd bwd ;;;
   gradient_descent_epoch (rows_window train_data cut (N - cut))
                          (rows_window train_labels cut (N - cut))
                          lr b fwd bwd).
Proof.
  intros N cut. set (bs := Z.to_nat b) in *.
  assert (Hbs : (0 < bs)%nat) by (unfold bs; lia).
  rewrite !epoch_as_batches by (try exact Hb; simpl; congruence).
  fold bs. unfold contiguous_batches. simpl. fold N.
  assert (Hcut : (cut / bs = k)%nat) by (unfold cut; apply Nat.div_mul; lia).
  assert (Hle : (cut <= N)%nat).
  { unfold cut. pose proof (Nat.Div0.mul_div_le N bs). unfold N in *. nia. }
  assert (Hrest : ((N - cut) / bs = N / bs - k)%nat).
  { replace N with ((N - cut) + k * bs)%nat at 2 by (unfold cut; lia).
    rewrite Nat.div_add by lia. lia. }
  rewrite Hcut, Hrest.
  replace (N / bs)%nat with (k + (N / bs - k))%nat at 1 by (unfold N; lia).
  rewrite seq_app, map_app, run_batches_app. simpl.
  f_equal. apply functional_extensionality. intros _. f_equal.
  rewrite map_seq_shift. apply map_ext. intros i.
  unfold rows_window. simpl. unfold cut.
  f_equal; f_equal; apply functional_extensionality; intros r;
    apply functional_extensionality; intros j; f_equal; lia.
Qed.

Lemma epoch_splits_at_batch_boundary_witness :
  gradient_descent_epoch ex_data ex_labels 1 2 forward_prop backward_prop =
  (gradient_descent_epoch (rows_window ex_data 0 2) (rows_window ex_labels 0 2)
     1 2 forward_prop backward_prop ;;;
   gradient_descent_epoch (rows_window ex_data 2 3) (rows_window ex_labels 2 3)
     1 2 forward_prop backward_prop).
Proof.
  exact (@epoch_splits_at_batch_boundary ex_data ex_labels 1 2
           forward_prop backward_prop 1 eq_refl eq_refl (le_S _ _ (le_n 1))).
Defined.

(** ** [nn_train], [nn_test] and [run_train_test], lines 238-318 *)

Lemma train_epochs_cons_inv (e : nat) (rest : list nat)
    (train_data train_labels dev_data dev_labels : ndarray2)
    (fwd : forward_t) (bwd : backward_t) (lr : R) (b : Z)
    (p : Params) (ct cd at_ ad : list R) (r : train_out) :
  train_epochs (e :: rest) train_data train_labels dev_data dev_labels
    fwd bwd lr b (p, ct, cd, at_, ad) = Ok r ->
  exists p1 h1 out1 c1 a1 h2 out2 c2 a2,
    gradient_descent_epoch train_data train_labels lr b fwd bwd p = (Ok tt, p1) /\
    fwd train_data train_labels p1 = Ok (h1, out1, c1) /\
    compute_accuracy out1 train_labels = Ok a1 /\
    fwd dev_data dev_labels p1 = Ok (h2, out2, c2) /\
    compute_accuracy out2 dev_labels = Ok a2 /\
    train_epochs rest train_data train_labels dev_data dev_labels fwd bwd lr b
      (p1, ct ++ [c1], cd ++ [c2], at_ ++ [a1], ad ++ [a2]) = Ok r.
Proof.
  simpl. intros Hrun.
  destruct (gradient_descent_epoch train_data train_labels lr b fwd bwd p)
    as [[[]|ex] p1]; [|discriminate Hrun].
  bind_step. destruct a as [[h1 out1] c1]. simpl in Hrun.
  bind_step.
  bind_step. destruct a0 as [[h2 out2] c2]. simpl in Hrun.
  bind_step.
  exists p1, h1, out1, c1, a, h2, out2, c2, a0. auto 10.
Qed.

Lemma train_epochs_last (epochs : list nat)
    (train_data train_labels dev_data dev_labels : ndarray2)
    (fwd : forward_t) (bwd : backward_t) (lr : R) (b : Z) :
  epochs <> [] ->
  forall p ct cd at_ ad p' ct' cd' at' ad',
  train_epochs epochs train_data train_labels dev_data dev_labels fwd bwd lr b
    (p, ct, cd, at_, ad) = Ok (p', ct', cd', at', ad') ->
  exists h1 out1 h2 out2,
    fwd train_data train_labels p' = Ok (h1, out1, last ct' 0) /\
    compute_accuracy out1 train_labels = Ok (last at' 0) /\
    fwd dev_data dev_labels p' = Ok (h2, out2, last cd' 0) /\
    compute_accuracy out2 dev_labels = Ok (last ad' 0).
Proof.
  induction epochs as [|e rest IH]; intros Hne p ct cd at_ ad p' ct' cd' at' ad' Hrun;
    [contradiction|].
  apply train_epochs_cons_inv in Hrun
    as (p1 & h1 & out1 & c1 & a1 & h2 & out2 & c2 & a2
        & _ & Hf1 & Ha1 & Hf2 & Ha2 & Hrest).
  destruct rest as [|e' rest'].
  - simpl in Hrest. injection Hrest as <- <- <- <- <-.
    rewrite !last_last. exists h1, out1, h2, out2. auto.
  - apply IH in Hrest; [exact Hrest | discriminate].
Qed.

(** X23 — after at least one epoch, the last recorded metrics are those of
    the parameters that [nn_train] returns: evaluating the forward pass on
    the training and on the held-out data with the returned parameters
    gives the last entries of [cost_train] and [cost_dev], and the
    accuracy of its outputs the last entries of [accuracy_train] and
    [accuracy_dev]. *)
Theorem nn_train_last_metrics
    (train_data train_labels dev_data dev_labels : ndarray2)
    (init : Z -> Z -> Z -> ST nat Params) (fwd : forward_t) (bwd : backward_t)
    (num_hidden : Z) (lr : R) (num_epochs b : Z) (rng rng' : nat)
    (params : Params) (ct cd at_ ad : list R)
    (Hrun : nn_train train_data train_labels dev_data dev_labels init fwd bwd
              num_hidden lr num_epochs b rng
            = (Ok (params, ct, cd, at_, ad), rng'))
    (Hpos : (0 < num_epochs)%Z) :
  exists h1 out1 h2 out2,
    fwd train_data train_labels params = Ok (h1, out1, last ct 0) /\
    compute_accuracy out1 train_labels = Ok (last at_ 0) /\
    fwd dev_data dev_labels params = Ok (h2, out2, last cd 0) /\
    compute_accuracy out2 dev_labels = Ok (last ad 0).
Proof.
  unfold nn_train, sbind, lift in Hrun.
  destruct (init (Z.of_nat (mshape1 train_data)) num_hidden 10%Z rng)
    as [[p0|e] rng0]; [|discriminate Hrun].
  injection Hrun as Hrun _.
  apply train_epochs_last in Hrun; [exact Hrun|].
  intros Hnil. apply (f_equal (@length nat)) in Hnil.
  rewrite length_seq in Hnil. simpl in Hnil. lia.
Qed.

Lemma ex10_train_shape : batch_shape ex10_data ex10_labels 2 2 10.
Proof. unfold batch_shape. simpl. auto. Qed.

Lemma ex10_dev_shape : batch_shape ex10_dev_data ex10_dev_labels 1 2 10.
Proof. unfold batch_shape. simpl. auto. Qed.

Lemma nn_train_last_metrics_witness :
  exists params ct cd at_ ad rng' h1 out1,
    nn_train ex10_data ex10_labels ex10_dev_data ex10_dev_labels
      (get_initial_params ex_normal) forward_prop backward_prop 3 1 2 1 0%nat
    = (Ok (params, ct, cd, at_, ad), rng') /\
    forward_prop ex10_data ex10_labels params = Ok (h1, out1, last ct 0).
Proof.
  destruct (@nn_train_ok ex_normal ex10_data ex10_labels ex10_dev_data
              ex10_dev_labels 3 1 2 1 0 2 1 2 ex10_train_shape ex10_dev_shape)
    as (params & ct & cd & at_ & ad & rng' & Hrun); try lia.
  pose proof Hrun as Hlast. apply nn_train_last_metrics in Hlast; [|lia].
  destruct Hlast as (h1 & out1 & _ & _ & Hf & _).
  exists params, ct, cd, at_, ad, rng', h1, out1.
  split; [exact Hrun | exact Hf].
Defined.

(** X24 — [nn_test] composes with [nn_train]: after a training of at least
    one epoch with the module's forward pass, testing the returned
    parameters on the training data gives the last entry of
    [accuracy_train], and on the held-out data the last entry of
    [accuracy_dev]. *)
Theorem nn_test_after_nn_train
    (train_data train_labels dev_data dev_labels : ndarray2)
    (init : Z -> Z -> Z -> ST nat Params) (bwd : backward_t)
    (num_hidden : Z) (lr : R) (num_epochs b : Z) (rng rng' : nat)
    (params : Params) (ct cd at_ ad : list R)
    (Hrun : nn_train train_data train_labels dev_data dev_labels init
              forward_prop bwd num_hidden lr num_epochs b rng
            = (Ok (params, ct, cd, at_, ad), rng'))
    (Hpos : (0 < num_epochs)%Z) :
  nn_test train_data train_labels params = Ok (last at_ 0) /\
  nn_test dev_data dev_labels params = Ok (last ad 0).
Proof.
  unfold nn_train, sbind, lift in Hrun.
  destruct (init (Z.of_nat (mshape1 train_data)) num_hidden 10%Z rng)
    as [[p0|e] rng0]; [|discriminate Hrun].
  injection Hrun as Hrun _.
  apply train_epochs_last in Hrun.
  - destruct Hrun as (h1 & out1 & h2 & out2 & Hf1 & Ha1 & Hf2 & Ha2).
    unfold nn_test. rewrite Hf1, Hf2. simpl. rewrite Ha1, Ha2. auto.
  - intros Hnil. apply (f_equal (@length nat)) in Hnil.
    rewrite length_seq in Hnil. simpl in Hnil. lia.
Qed.

Lemma nn_test_after_nn_train_witness :
  exists params ct cd at_ ad rng',
    nn_train ex10_data ex10_labels ex10_dev_data ex10_dev_labels
      (get_initial_params ex_normal) forward_prop backward_prop 3 1 2 1 0%nat
    = (Ok (params, ct, cd, at_, ad), rng') /\
    nn_test ex10_dev_data ex10_dev_labels params = Ok (last ad 0).
Proof.
  destruct (@nn_train_ok ex_normal ex10_data ex10_labels ex10_dev_data
              ex10_dev_labels 3 1 2 1 0 2 1 2 ex10_train_shape ex10_dev_shape)
    as (params & ct & cd & at_ & ad & rng' & Hrun); try lia.
  pose proof Hrun as Htest. apply nn_test_after_nn_train in Htest; [|lia].
  exists params, ct, cd, at_, ad, rng'.
  split; [exact Hrun | exact (proj2 Htest)].
Defined.

Lemma train_epochs_app (l1 l2 : list nat)
    (train_data train_labels dev_data dev_labels : ndarray2)
    (fwd : forward_t) (bwd : backward_t) (lr : R) (b : Z) (st : train_out) :
  train_epochs (l1 ++ l2) train_data train_labels dev_data dev_labels
    fwd bwd lr b st =
  (st1 <- train_epochs l1 train_data train_labels dev_data dev_labels
            fwd bwd lr b st ;;
   train_epochs l2 train_data train_labels dev_data dev_labels
     fwd bwd lr b st1).
Proof.
  revert st. induction l1 as [|e l1 IH]; intros st; [reflexivity|].
  destruct st as [[[[p ct] cd] at_] ad]. simpl.
  destruct (gradient_descent_epoch train_data train_labels lr b fwd bwd p)
    as [[[]|ex] p1]; [|reflexivity].
  destruct (fwd train_data train_labels p1) as [[[h1 out1] c1]|ex]; simpl;
    [|reflexivity].
  destruct (compute_accuracy out1 train_labels) as [a1|ex]; simpl;
    [|reflexivity].
  destruct (fwd dev_data dev_labels p1) as [[[h2 out2] c2]|ex]; simpl;
    [|reflexivity].
  destruct (compute_accuracy out2 dev_labels) as [a2|ex]; simpl;
    [|reflexivity].
  apply IH.
Qed.

Lemma train_epochs_extends (epochs : list nat)
    (train_data train_labels dev_data dev_labels : ndarray2)
    (fwd : forward_t) (bwd : backward_t) (lr : R) (b : Z) :
  forall p ct cd at_ ad p' ct' cd' at' ad',
  train_epochs epochs train_data train_labels dev_data dev_labels fwd bwd lr b
    (p, ct, cd, at_, ad) = Ok (p', ct', cd', at', ad') ->
  exists x1 x2 x3 x4,
    ct' = ct ++ x1 /\ cd' = cd ++ x2 /\ at' = at_ ++ x3 /\ ad' = ad ++ x4.
Proof.
  induction epochs as [|e rest IH]; intros p ct cd at_ ad p' ct' cd' at' ad' Hrun.
  - simpl in Hrun. injection Hrun as <- <- <- <- <-.
    exists [], [], [], []. rewrite !app_nil_r. auto.
  - apply train_epochs_cons_inv in Hrun
      as (p1 & h1 & out1 & c1 & a1 & h2 & out2 & c2 & a2
          & _ & _ & _ & _ & _ & Hrest).
    apply IH in Hrest as (x1 & x2 & x3 & x4 & -> & -> & -> & ->).
    exists ([c1] ++ x1), ([c2] ++ x2), ([a1] ++ x3), ([a2] ++ x4).
    rewrite !app_assoc. auto.
Qed.

Lemma firstn_length_app (A : Type) (l x : list A) :
  firstn (length l) (l ++ x) = l.
Proof.
  induction l as [|a l IH]; simpl; [reflexivity | rewrite IH; reflexivity].
Qed.

(** X25 — the metric sequences only grow: a training of [n] epochs from
    the same generator state returns whenever the training of [n + m]
    epochs does, and its four metric sequences are the first [n] entries
    of those of the longer training. *)
Theorem nn_train_metrics_are_prefixes
    (train_data train_labels dev_data dev_labels : ndarray2)
    (init : Z -> Z -> Z -> ST nat Params) (fwd : forward_t) (bwd : backward_t)
    (num_hidden : Z) (lr : R) (n m b : Z) (rng rng' : nat)
    (params' : Params) (ct' cd' at' ad' : list R)
    (Hn : (0 <= n)%Z) (Hm : (0 <= m)%Z)
    (Hrun : nn_train train_data train_labels dev_data dev_labels init fwd bwd
              num_hidden lr (n + m) b rng
            = (Ok (params', ct', cd', at', ad'), rng')) :
  exists params ct cd at_ ad,
    nn_train train_data train_labels dev_data dev_labels init fwd bwd
      num_hidden lr n b rng
    = (Ok (params, ct, cd, at_, ad), rng') /\
    ct = firstn (Z.to_nat n) ct' /\ cd = firstn (Z.to_nat n) cd' /\
    at_ = firstn (Z.to_nat n) at' /\ ad = firstn (Z.to_nat n) ad'.
Proof.
  unfold nn_train, sbind, lift in *.
  destruct (init (Z.of_nat (mshape1 train_data)) num_hidden 10%Z rng)
    as [[p0|e] rng0]; [|discriminate Hrun].
  injection Hrun as Hrun <-.
  rewrite Z2Nat.inj_add, seq_app, train_epochs_app in Hrun by lia.
  destruct (train_epochs (seq 0 (Z.to_nat n)) train_data train_labels
              dev_data dev_labels fwd bwd lr b (p0, [], [], [], []))
    as [[[[[p ct] cd] at_] ad]|e] eqn:E1; [|discriminate Hrun].
  simpl in Hrun.
  exists p, ct, cd, at_, ad. split; [reflexivity|].
  pose proof E1 as Hlen.
  apply train_epochs_inv in Hlen as (L1 & L2 & L3 & L4 & _).
  rewrite length_seq in L1, L2, L3, L4. simpl in L1, L2, L3, L4.
  apply train_epochs_extends in Hrun as (x1 & x2 & x3 & x4 & -> & -> & -> & ->).
  rewrite <- L1 at 1. rewrite <- L2 at 1. rewrite <- L3 at 1. rewrite <- L4.
  rewrite !firstn_length_app. auto.
Qed.

Lemma train_len_helper
    (train_data train_labels dev_data dev_labels : ndarray2)
    (init : Z -> Z -> Z -> ST nat Params) (fwd : forward_t) (bwd : backward_t)
    (num_hidden : Z) (lr : R) (num_epochs b : Z) (rng rng' : nat)
    (params : Params) (ct cd at_ ad : list R) :
  nn_train train_data train_labels dev_data dev_labels init fwd bwd
    num_hidden lr num_epochs b rng = (Ok (params, ct, cd, at_, ad), rng') ->
  length ct = Z.to_nat num_epochs.
Proof.
  unfold nn_train, sbind, lift. intros Hrun.
  destruct (init (Z.of_nat (mshape1 train_data)) num_hidden 10%Z rng)
    as [[p0|e] rng0]; [|discriminate Hrun].
  injection Hrun as Hrun _.
  apply train_epochs_inv in Hrun as (L1 & _).
  rewrite length_seq in L1. exact L1.
Qed.

Lemma nn_train_metrics_are_prefixes_witness :
  exists params ct cd at_ ad rng',
    nn_train ex10_data ex10_labels ex10_dev_data ex10_dev_labels
      (get_initial_params ex_normal) forward_prop backward_prop 3 1 1 1 0%nat
    = (Ok (params, ct, cd, at_, ad), rng') /\ length ct = 1%nat.
Proof.
  destruct (@nn_train_ok ex_normal ex10_data ex10_labels ex10_dev_data
              ex10_dev_labels 3 1 (1 + 1) 1 0 2 1 2
              ex10_train_shape ex10_dev_shape)
    as (params' & ct' & cd' & at' & ad' & rng' & Hrun); try lia.
  pose proof Hrun as Hlen.
  apply train_len_helper in Hlen.
  apply nn_train_metrics_are_prefixes in Hrun; [|lia | lia].
  destruct Hrun as (params & ct & cd & at_ & ad & Hshort & -> & _).
  exists params, (firstn (Z.to_nat 1) ct'), cd, at_, ad, rng'.
  split; [exact Hshort|].
  rewrite length_firstn, Hlen. reflexivity.
Defined.

Lemma train_epochs_idle (epochs : list nat)
    (train_data train_labels dev_data dev_labels : ndarray2)
    (fwd : forward_t) (bwd : backward_t) (lr : R) (b : Z) :
  (forall q, gradient_descent_epoch train_data train_labels lr b fwd bwd q
             = (Ok tt, q)) ->
  forall p ct cd at_ ad p' ct' cd' at' ad',
  train_epochs epochs train_data train_labels dev_data dev_labels fwd bwd lr b
    (p, ct, cd, at_, ad) = Ok (p', ct', cd', at', ad') ->
  p' = p /\
  forall h1 out1 c1 a1 h2 out2 c2 a2,
    fwd train_data train_labels p = Ok (h1, out1, c1) ->
    compute_accuracy out1 train_labels = Ok a1 ->
    fwd dev_data dev_labels p = Ok (h2, out2, c2) ->
    compute_accuracy out2 dev_labels = Ok a2 ->
    ct' = ct ++ repeat c1 (length epochs) /\
    cd' = cd ++ repeat c2 (length epochs) /\
    at' = at_ ++ repeat a1 (length epochs) /\
    ad' = ad ++ repeat a2 (length epochs).
Proof.
  intros Hidle.
  induction epochs as [|e rest IH]; intros p ct cd at_ ad p' ct' cd' at' ad' Hrun.
  - simpl in Hrun. injection Hrun as <- <- <- <- <-.
    split; [reflexivity|]. intros. simpl. rewrite !app_nil_r. auto.
  - apply train_epochs_cons_inv in Hrun
      as (p1 & h1 & out1 & c1 & a1 & h2 & out2 & c2 & a2
          & Hep & Hf1 & Ha1 & Hf2 & Ha2 & Hrest).
    rewrite Hidle in Hep. injection Hep as <-.
    apply IH in Hrest as (-> & Hmet).
    split; [reflexivity|].
    intros h1' out1' c1' a1' h2' out2' c2' a2' Hf1' Ha1' Hf2' Ha2'.
    rewrite Hf1 in Hf1'. injection Hf1' as <- <- <-.
    rewrite Ha1 in Ha1'. injection Ha1' as <-.
    rewrite Hf2 in Hf2'. injection Hf2' as <- <- <-.
    rewrite Ha2 in Ha2'. injection Ha2' as <-.
    destruct (Hmet _ _ _ _ _ _ _ _ Hf1 Ha1 Hf2 Ha2) as (-> & -> & -> & ->).
    simpl. rewrite <- !app_assoc. auto.
Qed.

Lemma nn_train_idle_helper
    (train_data train_labels dev_data dev_labels : ndarray2)
    (init : Z -> Z -> Z -> ST nat Params) (fwd : forward_t) (bwd : backward_t)
    (num_hidden : Z) (lr : R) (num_epochs b : Z) (rng rng' : nat)
    (params : Params) (ct cd at_ ad : list R) :
  nn_train train_data train_labels dev_data dev_labels init fwd bwd
    num_hidden lr num_epochs b rng = (Ok (params, ct, cd, at_, ad), rng') ->
  (b < 0 \/ Z.of_nat (mshape0 train_labels) < b)%Z ->
  init (Z.of_nat (mshape1 train_data)) num_hidden 10%Z rng = (Ok params, rng').
Proof.
  intros Hrun Hb.
  assert (Hidle : forall q,
            gradient_descent_epoch train_data train_labels lr b fwd bwd q
            = (Ok tt, q)) by (intros q; apply epoch_no_batches; exact Hb).
  unfold nn_train, sbind, lift in Hrun.
  destruct (init (Z.of_nat (mshape1 train_data)) num_hidden 10%Z rng)
    as [[p0|e] rng0]; [|discriminate Hrun].
  injection Hrun as Hrun <-.
  apply train_epochs_idle in Hrun; [|exact Hidle].
  destruct Hrun as (-> & _). reflexivity.
Qed.

(** X26 — when the batch size is larger than the number of training rows
    (or negative), training never updates the parameters: [nn_train]
    returns the parameters exactly as the initializer produced them, and
    every epoch records the same loss and the same accuracy, for any
    number of epochs. *)
Theorem nn_train_without_full_batch
    (train_data train_labels dev_data dev_labels : ndarray2)
    (init : Z -> Z -> Z -> ST nat Params) (fwd : forward_t) (bwd : backward_t)
    (num_hidden : Z) (lr : R) (num_epochs b : Z) (rng rng' : nat)
    (params : Params) (ct cd at_ ad : list R)
    (Hb : (b < 0 \/ Z.of_nat (mshape0 train_labels) < b)%Z)
    (Hrun : nn_train train_data train_labels dev_data dev_labels init fwd bwd
              num_hidden lr num_epochs b rng
            = (Ok (params, ct, cd, at_, ad), rng')) :
  init (Z.of_nat (mshape1 train_data)) num_hidden 10%Z rng = (Ok params, rng') /\
  ct = repeat (last ct 0) (Z.to_nat num_epochs) /\
  cd = repeat (last cd 0) (Z.to_nat num_epochs) /\
  at_ = repeat (last at_ 0) (Z.to_nat num_epochs) /\
  ad = repeat (last ad 0) (Z.to_nat num_epochs).
Proof.
  assert (Hidle : forall q,
            gradient_descent_epoch train_data train_labels lr b fwd bwd q
            = (Ok tt, q)) by (intros q; apply epoch_no_batches; exact Hb).
  unfold nn_train, sbind, lift in Hrun.
  destruct (init (Z.of_nat (mshape1 train_data)) num_hidden 10%Z rng)
    as [[p0|e] rng0]; [|discriminate Hrun].
  injection Hrun as Hrun <-.
  pose proof Hrun as Hid. apply train_epochs_idle in Hid; [|exact Hidle].
  destruct Hid as (-> & Hmet).
  split; [reflexivity|].
  destruct (seq 0 (Z.to_nat num_epochs)) as [|e rest] eqn:Hseq.
  - assert (Hz : Z.to_nat num_epochs = 0%nat).
    { apply (f_equal (@length nat)) in Hseq.
      rewrite length_seq in Hseq. exact Hseq. }
    simpl in Hrun. injection Hrun as <- <- <- <-. rewrite Hz. auto.
  - assert (Hlen : length (e :: rest) = Z.to_nat num_epochs).
    { rewrite <- Hseq. apply length_seq. }
    pose proof Hrun as Hlast.
    apply train_epochs_last in Hlast; [|discriminate].
    destruct Hlast as (h1 & out1 & h2 & out2 & Hf1 & Ha1 & Hf2 & Ha2).
    destruct (Hmet _ _ _ _ _ _ _ _ Hf1 Ha1 Hf2 Ha2) as (E1 & E2 & E3 & E4).
    rewrite Hlen in E1, E2, E3, E4. simpl in E1, E2, E3, E4. auto.
Qed.

Lemma nn_train_without_full_batch_witness :
  exists params ct cd at_ ad rng',
    nn_train ex10_data ex10_labels ex10_dev_data ex10_dev_labels
      (get_initial_params ex_normal) forward_prop backward_prop 3 1 2 5 0%nat
    = (Ok (params, ct, cd, at_, ad), rng') /\
    get_initial_params ex_normal 2 3 10 0%nat = (Ok params, rng').
Proof.
  destruct (@nn_train_ok ex_normal ex10_data ex10_labels ex10_dev_data
              ex10_dev_labels 3 1 2 5 0 2 1 2
              ex10_train_shape ex10_dev_shape)
    as (params & ct & cd & at_ & ad & rng' & Hrun); try lia.
  pose proof Hrun as Hinit.
  apply nn_train_without_full_batch in Hinit; [|simpl; lia].
  exists params, ct, cd, at_, ad, rng'.
  split; [exact Hrun | exact (proj1 Hinit)].
Defined.

(** X27 — [run_train_test] always trains with batches of 1000 rows: on a
    training split of fewer than 1000 rows it never takes a gradient step,
    and the accuracy it returns is the test accuracy of the freshly drawn
    initial parameters, whatever the gradient function and the number of
    epochs. *)
Theorem run_train_test_small_training_set (normal : nat -> R)
    (all_data all_labels : Splits) (bwd : backward_t) (num_epochs : Z)
    (rng rng' : nat) (accuracy : R)
    (Hsmall : (mshape0 (train all_labels) < 1000)%nat)
    (Hrun : run_train_test normal all_data all_labels bwd num_epochs rng
            = (Ok accuracy, rng')) :
  exists params,
    get_initial_params normal (Z.of_nat (mshape1 (train all_data))) 300 10 rng
      = (Ok params, rng') /\
    nn_test (test all_data) (test all_labels) params = Ok accuracy.
Proof.
  unfold run_train_test in Hrun. unfold sbind at 1 in Hrun.
  destruct (nn_train _ _ _ _ _ _ _ _ _ _ _ rng)
    as [[[[[[params ct] cd] at_] ad]|e] rng1] eqn:Htrain; [|discriminate Hrun].
  apply nn_train_idle_helper in Htrain; [|right; lia].
  unfold sbind, lift, sret in Hrun.
  destruct (nn_test (test all_data) (test all_labels) params) as [acc|e] eqn:Ht;
    [|discriminate Hrun].
  injection Hrun as <- <-.
  exists params. split; [exact Htrain | exact Ht].
Qed.

Lemma nn_test_ok (data labels : ndarray2) (params : Params) (N D H C : nat) :
  batch_shape data labels N D C -> params_shape params D H C ->
  (1 <= N)%nat -> (1 <= C)%nat ->
  exists acc, nn_test data labels params = Ok acc.
Proof.
  intros Hbs Hps HN HC.
  destruct (forward_prop_ok Hbs Hps HN HC)
    as (a1 & a2 & loss & Hf & _ & _ & H20 & H21).
  destruct (@compute_accuracy_ok a2 labels) as (acc & Hacc);
    [destruct Hbs as (? & ? & ? & ?); congruence | lia
    | destruct Hbs as (? & ? & ? & ?); lia |].
  exists acc. unfold nn_test. rewrite Hf. simpl. rewrite Hacc. reflexivity.
Qed.

Lemma run_train_test_small_training_set_witness :
  exists accuracy rng' params,
    run_train_test ex_normal
      (mkSplits ex10_data ex10_dev_data ex10_dev_data)
      (mkSplits ex10_labels ex10_dev_labels ex10_dev_labels)
      backward_prop 2 0%nat = (Ok accuracy, rng') /\
    get_initial_params ex_normal 2 300 10 0%nat = (Ok params, rng') /\
    nn_test ex10_dev_data ex10_dev_labels params = Ok accuracy.
Proof.
  destruct (@nn_train_ok ex_normal ex10_data ex10_labels ex10_dev_data
              ex10_dev_labels 300 5 2 1000 0 2 1 2
              ex10_train_shape ex10_dev_shape)
    as (params & ct & cd & at_ & ad & rng' & Htrain); try lia.
  pose proof Htrain as Hinit.
  apply nn_train_idle_helper in Hinit; [|right; simpl; lia].
  pose proof Hinit as Hshape.
  apply get_initial_params_inv in Hshape as (_ & _ & _ & Hshape).
  destruct (nn_test_ok ex10_dev_shape Hshape) as (acc & Hacc); [lia | lia |].
  assert (Hrun : run_train_test ex_normal
            (mkSplits ex10_data ex10_dev_data ex10_dev_data)
            (mkSplits ex10_labels ex10_dev_labels ex10_dev_labels)
            backward_prop 2 0%nat = (Ok acc, rng')).
  { unfold run_train_test. unfold sbind at 1. simpl train. simpl dev.
    simpl test. rewrite Htrain. unfold sbind, lift, sret.
    cbv beta iota delta [test]. rewrite Hacc. reflexivity. }
  pose proof Hrun as Hsmall.
  apply run_train_test_small_training_set in Hsmall; [|simpl; lia].
  destruct Hsmall as (p & Hp & Ht).
  exists acc, rng', p. split; [exact Hrun|]. split; [exact Hp | exact Ht].
Defined.

Lemma forward_prop_label_columns (data labels : ndarray2) (params : Params)
    (N D H C C' : nat) :
  batch_shape data labels N D C -> params_shape params D H C' ->
  (1 <= N)%nat -> (1 <= C')%nat ->
  C <> C' -> C <> 1%nat -> C' <> 1%nat ->
  forward_prop data labels params = Raise ValueError.
Proof.
  intros (Hd0 & Hd1 & Hl0 & Hl1) (Hw0 & Hw1 & Hb1 & Hv0 & Hv1 & Hb2)
    HN HC' Hne H1 H1'.
  unfold forward_prop.
  rewrite dot_ok by congruence. simpl.
  rewrite ew21_ok by (simpl; congruence). simpl.
  rewrite dot_ok by (simpl; congruence). simpl.
  rewrite ew21_ok by (simpl; congruence). simpl.
  rewrite softmax_value by (simpl; lia). simpl.
  destruct (Nat.eqb_spec (mshape0 labels) 0); [lia|].
  unfold ew2. simpl. rewrite Hl0, Hd0, broadcast_dim_refl. simpl.
  unfold broadcast_dim. rewrite Hl1, Hv1.
  destruct (Nat.eqb_spec C C'); [contradiction|].
  destruct (Nat.eqb_spec C 1); [contradiction|].
  destruct (Nat.eqb_spec C' 1); [contradiction|].
  reflexivity.
Qed.

(** X28 — [nn_train] with the module's initializer, forward pass and plain
    backward pass works for 10 classes only: on a well-shaped training set
    whose labels have any other number of columns (except a single
    column, which broadcasts), a training of at least one epoch with a
    positive batch size raises [ValueError]. *)
Theorem nn_train_rejects_other_class_counts (normal : nat -> R)
    (train_data train_labels dev_data dev_labels : ndarray2)
    (num_hidden : Z) (lr : R) (num_epochs b : Z) (rng N D C : nat)
    (Hbs : batch_shape train_data train_labels N D C)
    (HN : (1 <= N)%nat) (HC10 : C <> 10%nat) (HC1 : C <> 1%nat)
    (HH : (0 <= num_hidden)%Z) (Hb : (0 < b)%Z) (Hn : (0 < num_epochs)%Z) :
  exists rng',
    nn_train train_data train_labels dev_data dev_labels
      (get_initial_params normal) forward_prop backward_prop
      num_hidden lr num_epochs b rng
    = (Raise ValueError, rng').
Proof.
  unfold nn_train, sbind.
  destruct (@get_initial_params_ok normal (Z.of_nat (mshape1 train_data))
              num_hidden 10 rng) as (p0 & rng' & Hinit); [lia | lia | lia |].
  rewrite Hinit. exists rng'. unfold lift. f_equal.
  apply get_initial_params_inv in Hinit as (_ & _ & _ & Hp0).
  rewrite Nat2Z.id in Hp0.
  replace (mshape1 train_data) with D in Hp0 by (symmetry; apply Hbs).
  change (Z.to_nat 10) with 10%nat in Hp0.
  destruct (Z.to_nat num_epochs) as [|n] eqn:Hne; [lia|].
  cbn [seq train_epochs].
  destruct (Z.ltb_spec (Z.of_nat (mshape0 train_labels)) b) as [Hbig|Hfit].
  - rewrite epoch_no_batches by (right; exact Hbig).
    rewrite (forward_prop_label_columns Hbs Hp0) by lia. reflexivity.
  - assert (HNl : mshape0 train_labels = N) by apply Hbs.
    assert (Hrows : mshape0 train_data = mshape0 train_labels)
      by (destruct Hbs as (? & ? & ? & ?); congruence).
    rewrite epoch_as_batches by assumption.
    unfold contiguous_batches.
    destruct (mshape0 train_labels / Z.to_nat b)%nat as [|q] eqn:Hq.
    + exfalso. apply Nat.div_small_iff in Hq; lia.
    + cbn [seq map run_batches]. unfold sbind at 1.
      assert (Hstep : gradient_step lr b forward_prop backward_prop
                (rows_window train_data (0 * Z.to_nat b) (Z.to_nat b))
                (rows_window train_labels (0 * Z.to_nat b) (Z.to_nat b)) p0
              = (Raise ValueError, p0)).
      { unfold gradient_step, sbind, get, lift.
        unfold backward_prop.
        rewrite (@forward_prop_label_columns _ _ p0 (Z.to_nat b) D
                   (Z.to_nat num_hidden) C 10); try lia; try exact Hp0.
        - reflexivity.
        - destruct Hbs as (? & ? & ? & ?). unfold batch_shape. simpl. auto. }
      rewrite Hstep. reflexivity.
Qed.

Lemma nn_train_rejects_other_class_counts_witness :
  exists rng',
    nn_train ex_data ex_labels ex_data ex_labels
      (get_initial_params ex_normal) forward_prop backward_prop 3 1 1 2 0%nat
    = (Raise ValueError, rng').
Proof.
  apply (@nn_train_rejects_other_class_counts ex_normal ex_data ex_labels
           ex_data ex_labels 3 1 1 2 0 5 2 2 ex_batch_shape); lia.
Defined.

Lemma train_epochs_same_shapes (epochs : list nat)
    (train_data train_labels dev_data dev_labels : ndarray2)
    (fwd : forward_t) (bwd : backward_t) (lr : R) (b : Z) :
  forall p ct cd at_ ad p' ct' cd' at' ad',
  train_epochs epochs train_data train_labels dev_data dev_labels fwd bwd lr b
    (p, ct, cd, at_, ad) = Ok (p', ct', cd', at', ad') ->
  same_shapes p' p.
Proof.
  induction epochs as [|e rest IH]; intros p ct cd at_ ad p' ct' cd' at' ad' Hrun.
  - simpl in Hrun. injection Hrun as <- _ _ _ _. apply same_shapes_refl.
  - apply train_epochs_cons_inv in Hrun
      as (p1 & h1 & out1 & c1 & a1 & h2 & out2 & c2 & a2
          & Hep & _ & _ & _ & _ & Hrest).
    apply IH in Hrest.
    pose proof (@never_reshapes_epoch train_data train_labels lr b fwd bwd p)
      as Hk.
    rewrite Hep in Hk. simpl in Hk.
    exact (same_shapes_trans Hrest Hk).
Qed.

(** X29 — training never reshapes: whatever the initializer, the forward
    function and the gradient function, every parameter that [nn_train]
    returns has the shape the initializer gave it. *)
Theorem nn_train_keeps_initial_shapes
    (train_data train_labels dev_data dev_labels : ndarray2)
    (init : Z -> Z -> Z -> ST nat Params) (fwd : forward_t) (bwd : backward_t)
    (num_hidden : Z) (lr : R) (num_epochs b : Z) (rng rng' : nat)
    (params : Params) (ct cd at_ ad : list R)
    (Hrun : nn_train train_data train_labels dev_data dev_labels init fwd bwd
              num_hidden lr num_epochs b rng
            = (Ok (params, ct, cd, at_, ad), rng')) :
  exists params0,
    init (Z.of_nat (mshape1 train_data)) num_hidden 10%Z rng
      = (Ok params0, rng') /\
    mshape0 (W1 params) = mshape0 (W1 params0) /\
    mshape1 (W1 params) = mshape1 (W1 params0) /\
    vshape0 (b1 params) = vshape0 (b1 params0) /\
    mshape0 (W2 params) = mshape0 (W2 params0) /\
    mshape1 (W2 params) = mshape1 (W2 params0) /\
    vshape0 (b2 params) = vshape0 (b2 params0).
Proof.
  unfold nn_train, sbind, lift in Hrun.
  destruct (init (Z.of_nat (mshape1 train_data)) num_hidden 10%Z rng)
    as [[p0|e] rng0]; [|discriminate Hrun].
  injection Hrun as Hrun <-.
  exists p0. split; [reflexivity|].
  apply train_epochs_same_shapes in Hrun. exact Hrun.
Qed.

Lemma nn_train_keeps_initial_shapes_witness :
  exists params ct cd at_ ad rng' params0,
    nn_train ex10_data ex10_labels ex10_dev_data ex10_dev_labels
      (get_initial_params ex_normal) forward_prop backward_prop 3 1 2 1 0%nat
    = (Ok (params, ct, cd, at_, ad), rng') /\
    get_initial_params ex_normal 2 3 10 0%nat = (Ok params0, rng') /\
    mshape1 (W2 params) = mshape1 (W2 params0).
Proof.
  destruct (@nn_train_ok ex_normal ex10_data ex10_labels ex10_dev_data
              ex10_dev_labels 3 1 2 1 0 2 1 2
              ex10_train_shape ex10_dev_shape)
    as (params & ct & cd & at_ & ad & rng' & Hrun); try lia.
  pose proof Hrun as Hs. apply nn_train_keeps_initial_shapes in Hs.
  destruct Hs as (params0 & Hinit & _ & _ & _ & _ & Hw & _).
  exists params, ct, cd, at_, ad, rng', params0.
  split; [exact Hrun|]. split; [exact Hinit | exact Hw].
Defined.
